(** * A shallow embedding of google-prospeccao.py

    The script queries the Google Places web services (text search,
    nearby search, place details, geocoding), turns every search hit into
    a four-column row, merges the two searches with pandas and exports the
    table.  The web services are a [provider]: a function from the
    requests issued so far and the next request to its outcome.  Every
    request the script issues is appended to a log, so that claims about
    which calls are made can be stated on the log. *)

From Stdlib Require Import String Ascii List ZArith Bool Lia.
Import ListNotations.
Open Scope string_scope.
Open Scope list_scope.
Set Warnings "-register-all".

(** ** Decoded JSON values (what [response.json()] returns)

    Objects are association lists in the order of the payload; numbers are
    the integers of the payload (the floats of coordinates are only ever
    rendered through [py_str], see [obter_coordenadas]). *)
Inductive json : Type :=
| JNull
| JBool (b : bool)
| JNum (n : Z)
| JStr (s : string)
| JArr (l : list json)
| JObj (kv : list (string * json)).

(** The sentinel of the script. *)
Definition NA : json := JStr "N/A".

(** Python truthiness of a decoded JSON value ([if x:]). *)
Definition truthy (j : json) : bool :=
  match j with
  | JNull => false
  | JBool b => b
  | JNum n => negb (Z.eqb n 0)
  | JStr s => negb (String.eqb s "")
  | JArr l => negb (match l with [] => true | _ => false end)
  | JObj kv => negb (match kv with [] => true | _ => false end)
  end.

(** [x == 'OK'] *)
Definition is_ok (j : json) : bool :=
  match j with JStr s => String.eqb s "OK" | _ => false end.

(** Lookup in a decoded dict; [json.loads] gives dicts with unique keys. *)
Fixpoint assoc (k : string) (kv : list (string * json)) : option json :=
  match kv with
  | [] => None
  | (k', v) :: r => if String.eqb k' k then Some v else assoc k r
  end.

(** [d[k] = v] on a Python dict: an existing key keeps its position, a new
    key goes last. *)
Fixpoint dict_set (kv : list (string * json)) (k : string) (v : json)
  : list (string * json) :=
  match kv with
  | [] => [(k, v)]
  | (k', v') :: r =>
      if String.eqb k' k then (k, v) :: r else (k', v') :: dict_set r k v
  end.

(** ** Requests, responses and the script's state *)

Definition params := list (string * json).
Definition request : Type := (string * params)%type.

(** What [requests.get(url, params=...).json()] yields: a decoded body, or
    an exception (connection error, invalid JSON, ...). *)
Inductive outcome : Type :=
| Transport
| Body (j : json).

Definition provider : Type := list request -> request -> outcome.

(** One row of the DataFrame built by a search: the dict
    [{'Nome', 'Endereço', 'Telefone', 'Website'}]. *)
Record row : Type := mkRow {
  Nome : json;
  Endereco : json;
  Telefone : json;
  Website : json
}.

(** The log of issued requests, and the list [resultados] of the search
    that is running (a Python list mutated in place, so its contents
    survive an exception). *)
Record st : Type := mkSt {
  st_log : list request;
  st_acc : list row
}.

(** A computation ends normally, raises a Python exception (carrying the
    state reached when it was raised), or runs out of fuel (the
    [while True] loops of the script have no bound of their own). *)
Inductive res (A : Type) : Type :=
| Ret (a : A) (s : st)
| Exc (s : st)
| NoFuel.
Arguments Ret {A} a s.
Arguments Exc {A} s.
Arguments NoFuel {A}.

Definition M (A : Type) : Type := st -> res A.

Definition ret {A} (a : A) : M A := fun s => Ret a s.
Definition raise {A} : M A := fun s => Exc s.
Definition bind {A B} (m : M A) (k : A -> M B) : M B :=
  fun s => match m s with
           | Ret a s' => k a s'
           | Exc s' => Exc s'
           | NoFuel => NoFuel
           end.

Declare Scope py_scope.
Notation "x <- m ;; k" := (bind m (fun x => k))
  (at level 61, m at next level, right associativity) : py_scope.
Notation "m ;;; k" := (bind m (fun _ => k))
  (at level 61, right associativity) : py_scope.
Open Scope py_scope.

(** [try: m  except Exception: h] *)
Definition try_catch {A} (m : M A) (h : M A) : M A :=
  fun s => match m s with
           | Exc s' => h s'
           | r => r
           end.

(** [resultados.append(r)] *)
Definition append_row (r : row) : M unit :=
  fun s => Ret tt (mkSt (st_log s) (st_acc s ++ [r])).

Fixpoint mapM_ {A} (f : A -> M unit) (l : list A) : M unit :=
  match l with
  | [] => ret tt
  | x :: r => f x ;;; mapM_ f r
  end.

(** [d[k]] on a decoded value: only a dict holding [k] succeeds
    ([KeyError] or [TypeError] otherwise). *)
Definition py_getitem (d : json) (k : string) : M json :=
  match d with
  | JObj kv => match assoc k kv with Some v => ret v | None => raise end
  | _ => raise
  end.

(** [d.get(k, default)]: only dicts have [.get] ([AttributeError]). *)
Definition dict_get (kv : list (string * json)) (k : string) (dflt : json)
  : json :=
  match assoc k kv with Some v => v | None => dflt end.

Definition py_get (d : json) (k : string) (dflt : json) : M json :=
  match d with
  | JObj kv => ret (dict_get kv k dflt)
  | _ => raise
  end.

(** [for x in j]: a list yields its items, a dict its keys, a string its
    characters; other values raise [TypeError]. *)
Definition py_iter (j : json) : M (list json) :=
  match j with
  | JArr l => ret l
  | JObj kv => ret (map (fun p => JStr (fst p)) kv)
  | JStr s => ret (map (fun c => JStr (String c EmptyString))
                       (list_ascii_of_string s))
  | _ => raise
  end.

(** [j[0]]: the first item of a list, the first character of a string;
    a dict has string keys only ([KeyError]); others raise. *)
Definition py_index0 (j : json) : M json :=
  match j with
  | JArr (x :: _) => ret x
  | JStr (String c _) => ret (JStr (String c EmptyString))
  | _ => raise
  end.

Definition BASE_URL : string :=
  "https://maps.googleapis.com/maps/api/place/textsearch/json".
Definition nearby_url : string :=
  "https://maps.googleapis.com/maps/api/place/nearbysearch/json".
Definition detalhes_url : string :=
  "https://maps.googleapis.com/maps/api/place/details/json".
Definition geocode_url : string :=
  "https://maps.googleapis.com/maps/api/geocode/json".

Section Script.

(** The web services. *)
Variable prov : provider.
(** [os.getenv('GOOGLE_MAPS_API_KEY')]: a string or [None]. *)
Variable API_KEY : json.
(** [str(x)] as used by an f-string on a decoded JSON value. *)
Variable py_str : json -> string.

(** [requests.get(url, params=ps).json()], recorded in the log. *)
Definition http_get (url : string) (ps : params) : M json :=
  fun s =>
    let r := (url, ps) in
    let s' := mkSt (st_log s ++ [r]) (st_acc s) in
    match prov (st_log s) r with
    | Transport => Exc s'
    | Body j => Ret j s'
    end.

Definition detalhes_params (place_id : json) : params :=
  [("place_id", place_id); ("key", API_KEY);
   ("fields", JStr "name,formatted_phone_number,website")].

(** [obter_detalhes_por_place_id] (the prints are left out). *)
Definition obter_detalhes_por_place_id (place_id : json) : M json :=
  try_catch
    (dados <- http_get detalhes_url (detalhes_params place_id) ;;
     status <- py_getitem dados "status" ;;
     if is_ok status then py_getitem dados "result"
     else ret (JObj []))
    (ret (JObj [])).

(** Lines 77-82 of [buscar_textsearch] (142-147 of [buscar_nearbysearch]):
    [(telefone, website, razao_social_detalhada)]. *)
Definition campos_detalhes (detalhes : json) : M (json * json * json) :=
  if truthy detalhes then
    telefone <- py_get detalhes "formatted_phone_number" NA ;;
    website <- py_get detalhes "website" NA ;;
    razao_social_detalhada <- py_get detalhes "name" NA ;;
    ret (telefone, website, razao_social_detalhada)
  else ret (NA, NA, NA).

(** The body of the [for resultado in dados['results']] loop; the address
    key is ['formatted_address'] in text search, ['vicinity'] in nearby
    search. *)
Definition processar_resultado (chave_endereco : string) (resultado : json)
  : M unit :=
  nome <- py_get resultado "name" NA ;;
  endereco <- py_get resultado chave_endereco NA ;;
  place_id <- py_get resultado "place_id" NA ;;
  g <- py_get resultado "geometry" (JObj []) ;;
  l <- py_get g "location" (JObj []) ;;
  lat <- py_get l "lat" NA ;;
  g' <- py_get resultado "geometry" (JObj []) ;;
  l' <- py_get g' "location" (JObj []) ;;
  lng <- py_get l' "lng" NA ;;
  detalhes <- obter_detalhes_por_place_id place_id ;;
  c <- campos_detalhes detalhes ;;
  let '(telefone, website, razao_social_detalhada) := c in
  append_row (mkRow nome endereco telefone website).

(** The [while True] loop of [buscar_textsearch] (lines 61-97) and of
    [buscar_nearbysearch] (lines 126-162); [token] is [next_page_token],
    [ps] the dict [params], which keeps ['pagetoken'] once set. *)
Fixpoint paginar (url chave_endereco : string) (fuel : nat) (ps : params)
  (token : json) : M unit :=
  match fuel with
  | O => fun _ => NoFuel
  | S fuel' =>
      let ps' := if truthy token then dict_set ps "pagetoken" token else ps in
      dados <- http_get url ps' ;;
      status <- py_getitem dados "status" ;;
      if is_ok status then
        results <- py_getitem dados "results" ;;
        itens <- py_iter results ;;
        mapM_ (processar_resultado chave_endereco) itens ;;;
        tok <- py_get dados "next_page_token" JNull ;;
        if truthy tok then paginar url chave_endereco fuel' ps' tok
        else ret tt
      else ret tt
  end.

(** ** DataFrames

    A DataFrame is its column names and its rows, each row a list of cells
    aligned with the columns. *)
Record frame : Type := mkFrame {
  fcols : list string;
  frows : list (list json)
}.

Definition cols_busca : list string :=
  ["Nome"; "Endereço"; "Telefone"; "Website"].

Definition celulas (r : row) : list json :=
  [Nome r; Endereco r; Telefone r; Website r].

(** [pd.DataFrame(resultados)] for a list of dicts with the same four
    keys; the empty list gives a frame without columns. *)
Definition frame_of_rows (rs : list row) : frame :=
  mkFrame (match rs with [] => [] | _ => cols_busca end) (map celulas rs).

(** A search: [resultados = []], the loop inside [try ... except
    Exception], then [pd.DataFrame(resultados)]. *)
Definition buscar (url chave_endereco : string) (ps : params) (fuel : nat)
  : M frame :=
  fun s =>
    match try_catch (paginar url chave_endereco fuel ps JNull) (ret tt)
            (mkSt (st_log s) []) with
    | Ret _ s' => Ret (frame_of_rows (st_acc s')) (mkSt (st_log s') (st_acc s))
    | Exc s' => Exc (mkSt (st_log s') (st_acc s))
    | NoFuel => NoFuel
    end.

(** [if x:] on the optional string arguments. *)
Definition fornecido (o : option string) : option string :=
  match o with
  | Some x => if String.eqb x "" then None else Some x
  | None => None
  end.

Definition query_de (ps : params) : string :=
  match assoc "query" ps with Some (JStr q) => q | _ => "" end.

(** [params['query'] += sufixo] *)
Definition anexar_query (ps : params) (sufixo : string) : params :=
  dict_set ps "query" (JStr (query_de ps ++ sufixo)%string).

(** [if o: params['query'] += f"{prefixo}{o}"] *)
Definition anexar_opcional (ps : params) (prefixo : string)
  (o : option string) : params :=
  match fornecido o with
  | Some c => anexar_query ps (prefixo ++ c)%string
  | None => ps
  end.

(** Lines 42-54 of [buscar_textsearch]. *)
Definition textsearch_params (razao_social : string)
  (localizacao : option string) (raio : option Z)
  (cidade estado : option string) : params :=
  let ps := [("query", JStr razao_social); ("key", API_KEY)] in
  let ps := match fornecido localizacao with
            | Some l => dict_set ps "location" (JStr l) | None => ps end in
  let ps := match raio with
            | Some r => if Z.eqb r 0 then ps else dict_set ps "radius" (JNum r)
            | None => ps end in
  let ps := anexar_opcional ps " in " cidade in
  let ps := anexar_opcional ps ", " estado in
  ps.

Definition buscar_textsearch (fuel : nat) (razao_social : string)
  (localizacao : option string) (raio : option Z)
  (cidade estado : option string) : M frame :=
  buscar BASE_URL "formatted_address"
    (textsearch_params razao_social localizacao raio cidade estado) fuel.

Definition opt_json_str (o : option string) : json :=
  match o with Some x => JStr x | None => JNull end.
Definition opt_json_num (o : option Z) : json :=
  match o with Some x => JNum x | None => JNull end.

(** Lines 114-119 of [buscar_nearbysearch]. *)
Definition nearbysearch_params (razao_social : string)
  (localizacao : option string) (raio : option Z) : params :=
  [("keyword", JStr razao_social); ("location", opt_json_str localizacao);
   ("radius", opt_json_num raio); ("key", API_KEY)].

Definition buscar_nearbysearch (fuel : nat) (razao_social : string)
  (localizacao : option string) (raio : option Z) : M frame :=
  buscar nearby_url "vicinity"
    (nearbysearch_params razao_social localizacao raio) fuel.

(** ** The merge of the two searches *)

(** Only hashable cells can be deduplicated: pandas factorizes every
    column, and a dict or a list cell raises [TypeError]. *)
Definition hashable (j : json) : bool :=
  match j with JArr _ | JObj _ => false | _ => true end.

(** The numeric value Python gives to [bool] and [int] ([True == 1]). *)
Definition valor_numerico (j : json) : option Z :=
  match j with
  | JBool b => Some (if b then 1%Z else 0%Z)
  | JNum n => Some n
  | _ => None
  end.

(** Python [==] (with equal hashes) on hashable decoded values, as the
    pandas hash table compares object cells; [None] equals [None]. *)
Definition py_eq (a b : json) : bool :=
  match a, b with
  | JNull, JNull => true
  | JStr x, JStr y => String.eqb x y
  | _, _ =>
      match valor_numerico a, valor_numerico b with
      | Some x, Some y => Z.eqb x y
      | _, _ => false
      end
  end.

Fixpoint linha_eq (r1 r2 : list json) : bool :=
  match r1, r2 with
  | [], [] => true
  | x :: r1', y :: r2' => py_eq x y && linha_eq r1' r2'
  | _, _ => false
  end.

(** [duplicated(keep='first')]: a row is dropped when an earlier row is
    equal to it; [vistas] holds the earlier rows. *)
Fixpoint sem_duplicadas (vistas rs : list (list json)) : list (list json) :=
  match rs with
  | [] => []
  | r :: rs' =>
      if existsb (linha_eq r) vistas then sem_duplicadas (r :: vistas) rs'
      else r :: sem_duplicadas (r :: vistas) rs'
  end.

(** [df.drop_duplicates().reset_index(drop=True)] ([None]: it raised).
    Integer cells are compared as integers.  pandas first gives every
    column a dtype, and an integer column that also holds a null is stored
    as float64 (the null as NaN, which pandas matches with a null as this
    model does); float64 holds every integer of absolute value at most
    [2^53] exactly, so on such cells the comparison is the one pandas makes.
    Larger integers are rounded by pandas and may then compare equal; the
    statements about the merge assume the bound. *)
Definition drop_duplicates (f : frame) : option frame :=
  if forallb (forallb hashable) (frows f)
  then Some (mkFrame (fcols f) (sem_duplicadas [] (frows f)))
  else None.

(** [pd.concat([f, g])]: union of the columns, rows of [f] then of [g].
    Every frame met here has either no column (and no row) or the four
    columns of [cols_busca], so no cell has to be filled in. *)
Definition concat (f g : frame) : frame :=
  mkFrame (fcols f ++ filter (fun c => negb (existsb (String.eqb c) (fcols f)))
                         (fcols g))
          (frows f ++ frows g).

(** [buscar_empresas_por_razao_social] *)
Definition buscar_empresas_por_razao_social (fuel : nat) (razao_social : string)
  (localizacao : option string) (raio : option Z)
  (cidade estado : option string) : M frame :=
  resultados_textsearch <-
    buscar_textsearch fuel razao_social localizacao raio cidade estado ;;
  resultados_nearbysearch <-
    buscar_nearbysearch fuel razao_social localizacao raio ;;
  match drop_duplicates (concat resultados_textsearch resultados_nearbysearch)
  with
  | Some f => ret f
  | None => raise
  end.

(** ** Export *)

Fixpoint indice (c : string) (cols : list string) : option nat :=
  match cols with
  | [] => None
  | c' :: r => if String.eqb c' c then Some 0 else option_map S (indice c r)
  end.

Fixpoint substituir {A} (n : nat) (v : A) (l : list A) : list A :=
  match l, n with
  | [], _ => []
  | _ :: r, O => v :: r
  | x :: r, S n' => x :: substituir n' v r
  end.

Definition renomear_colunas (mapa : list (string * string)) (f : frame)
  : frame :=
  mkFrame (map (fun c => match find (fun p => String.eqb (fst p) c) mapa with
                         | Some p => snd p
                         | None => c
                         end) (fcols f))
          (frows f).

(** [df[c] = v] with a scalar [v]. *)
Definition atribuir_coluna (c : string) (v : json) (f : frame) : frame :=
  match indice c (fcols f) with
  | Some i => mkFrame (fcols f) (map (substituir i v) (frows f))
  | None => mkFrame (fcols f ++ [c]) (map (fun r => r ++ [v]) (frows f))
  end.

Fixpoint indices (cs cols : list string) : option (list nat) :=
  match cs with
  | [] => Some []
  | c :: r =>
      match indice c cols, indices r cols with
      | Some i, Some is => Some (i :: is)
      | _, _ => None
      end
  end.

(** [df[[c1, ..., cn]]] ([None]: [KeyError]). *)
Definition selecionar (cs : list string) (f : frame) : option frame :=
  match indices cs (fcols f) with
  | Some is => Some (mkFrame cs (map (fun r => map (fun i => nth i r JNull) is)
                                     (frows f)))
  | None => None
  end.

Definition colunas_exportadas : list string :=
  ["REGIAO"; "NOME DA EMPRESA"; "NOME DO CONTATO"; "TELEFONE"; "SITE"].

(** [salvar_resultados]: the table handed to [to_excel] ([None]: the
    column selection raised). *)
Definition salvar_resultados (resultados : frame) : option frame :=
  let resultados_formatados :=
    renomear_colunas [("Endereço", "REGIAO"); ("Nome", "NOME DA EMPRESA");
                      ("Telefone", "TELEFONE"); ("Website", "SITE")]
                     resultados in
  let resultados_formatados :=
    atribuir_coluna "NOME DO CONTATO" (JStr "") resultados_formatados in
  selecionar colunas_exportadas resultados_formatados.

(** ** Geocoding and the top-level flow *)

Definition geocode_params (cidade estado : string) : params :=
  [("address", JStr (cidade ++ ", " ++ estado)%string); ("key", API_KEY)].

(** [obter_coordenadas] *)
Definition obter_coordenadas (cidade estado : string) : M (option string) :=
  try_catch
    (dados <- http_get geocode_url (geocode_params cidade estado) ;;
     status <- py_getitem dados "status" ;;
     if is_ok status then
       results <- py_getitem dados "results" ;;
       primeiro <- py_index0 results ;;
       geometry <- py_getitem primeiro "geometry" ;;
       location <- py_getitem geometry "location" ;;
       lat <- py_getitem location "lat" ;;
       lng <- py_getitem location "lng" ;;
       ret (Some (py_str lat ++ "," ++ py_str lng)%string)
     else ret None)
    (ret None).

(** [resultados.empty] *)
Definition vazio (f : frame) : bool :=
  match fcols f, frows f with
  | [], _ | _, [] => true
  | _, _ => false
  end.

(** The [__main__] block, after the two [input()] calls; its value is the
    table written to the spreadsheet, if any. *)
Definition main (fuel : nat) (cidade estado : string) : M (option frame) :=
  let razao_social := "RAZAO SOCIAL" in
  localizacao <- obter_coordenadas cidade estado ;;
  let raio := 23000%Z in
  match fornecido localizacao with
  | Some l =>
      resultados <- buscar_empresas_por_razao_social fuel razao_social
                      (Some l) (Some raio) (Some cidade) (Some estado) ;;
      if vazio resultados then ret None
      else match salvar_resultados resultados with
           | Some t => ret (Some t)
           | None => raise
           end
  | None => ret None
  end.

End Script.

(** The [__main__] block with the write of the spreadsheet:
    [salvar_resultados] ends with [to_excel] (line 279), outside any
    [try]; [escrever t] tells whether writing the table [t] succeeds (an
    [OSError], or a cell openpyxl refuses, makes it raise). *)
Definition main_com_escrita (prov : provider) (API_KEY : json)
  (py_str : json -> string) (escrever : frame -> bool) (fuel : nat)
  (cidade estado : string) : M (option frame) :=
  r <- main prov API_KEY py_str fuel cidade estado ;;
  match r with
  | Some t => if escrever t then ret (Some t) else raise
  | None => ret None
  end.

(** ** [converter_horarios] (lines 224-255) *)

Definition dias_semana : list string :=
  ["SEG"; "TER"; "QUA"; "QUI"; "SEX"; "SAB"; "DOM"].
Definition dias_ingles : list string :=
  ["Monday"; "Tuesday"; "Wednesday"; "Thursday"; "Friday"; "Saturday";
   "Sunday"].

(** [s.split(': ', 1)]: the text before the first [": "] and the text
    after it, or [[s]] when [s] holds no [": "]. *)
Fixpoint split_dois_pontos (s : string) : list string :=
  match s with
  | EmptyString => [EmptyString]
  | String c r =>
      if String.prefix ": " s
      then [EmptyString; match r with String _ r' => r' | EmptyString => r end]
      else match split_dois_pontos r with
           | [a; b] => [String c a; b]
           | _ => [s]
           end
  end.

(** Lines 236-237: [dia, _ = horario.split(': ', 1)] (a [ValueError] when
    there is no [": "]) and [dias_semana[dias_ingles.index(dia)]] (a
    [ValueError] when [dia] is not an English day name). *)
Definition abreviatura (horario : string) : option string :=
  match split_dois_pontos horario with
  | [dia; _] =>
      match indice dia dias_ingles with
      | Some i => nth_error dias_semana i
      | None => None
      end
  | _ => None
  end.

(** Lines 235-241: the dict [horarios_convertidos], in insertion order. *)
Fixpoint agrupar (horarios_convertidos : list (string * list string))
  (horarios : list string) : option (list (string * list string)) :=
  match horarios with
  | [] => Some horarios_convertidos
  | horario :: r =>
      match abreviatura horario with
      | Some dia_abreviado =>
          let d :=
            if existsb (fun p => String.eqb (fst p) dia_abreviado)
                 horarios_convertidos
            then horarios_convertidos
            else horarios_convertidos ++ [(dia_abreviado, [])] in
          let d :=
            map (fun p => if String.eqb (fst p) dia_abreviado
                          then (fst p, snd p ++ [dia_abreviado]) else p) d in
          agrupar d r
      | None => None
      end
  end.

(** Lines 245-252 for one list [dias] ([None]: [dias[0]] raised). *)
Definition formatar_dias (dias : list string) : option string :=
  if Nat.eqb (length dias) 7 then Some "SEG-DOM"
  else if Nat.eqb (length dias) 6 && negb (existsb (String.eqb "DOM") dias)
  then Some "SEG-SAB"
  else if Nat.eqb (length dias) 5 && negb (existsb (String.eqb "SAB") dias)
          && negb (existsb (String.eqb "DOM") dias)
  then Some "SEG-SEX"
  else if Nat.ltb 1 (length dias)
  then match dias with
       | d0 :: _ => Some (d0 ++ "-" ++ last dias EmptyString)%string
       | [] => None
       end
  else match dias with d0 :: _ => Some d0 | [] => None end.

Fixpoint formatar_todos (vs : list (list string)) : option (list string) :=
  match vs with
  | [] => Some []
  | dias :: r =>
      match formatar_dias dias, formatar_todos r with
      | Some f, Some fs => Some (f :: fs)
      | _, _ => None
      end
  end.

(** [converter_horarios(horarios)] ([None]: it raised). *)
Definition converter_horarios (horarios : list string) : option string :=
  match agrupar [] horarios with
  | Some horarios_convertidos =>
      match formatar_todos (map snd horarios_convertidos) with
      | Some horarios_formatados =>
          Some (String.concat ", " horarios_formatados)
      | None => None
      end
  | None => None
  end.

(** ** Reference definitions *)

(** Structural equality of decoded values. *)
Fixpoint json_eq_dec (a b : json) {struct a} : {a = b} + {a <> b}.
Proof.
  destruct a as [|x|x|x|l|kv], b as [|y|y|y|l'|kv'];
    try (right; discriminate); try (left; reflexivity).
  - destruct (Bool.bool_dec x y); [left | right]; congruence.
  - destruct (Z.eq_dec x y); [left | right]; congruence.
  - destruct (string_dec x y); [left | right]; congruence.
  - destruct (list_eq_dec json_eq_dec l l'); [left | right]; congruence.
  - assert (D : forall p q : string * json, {p = q} + {p <> q}).
    { intros [k v] [k' v'].
      destruct (string_dec k k'), (json_eq_dec v v'); [left | right ..];
        congruence. }
    destruct (list_eq_dec D kv kv'); [left | right]; congruence.
Defined.

Definition linha_eq_dec : forall a b : list json, {a = b} + {a <> b} :=
  list_eq_dec json_eq_dec.

(** The deduplication as the spec words it: the rows in first-seen order,
    each distinct row once ([nodup] keeps last occurrences, hence the two
    reversals). *)
Definition primeiras_ocorrencias (l : list (list json)) : list (list json) :=
  rev (nodup linha_eq_dec (rev l)).

(** What the text search appends to the query for an optional argument. *)
Definition acrescimo (prefixo : string) (o : option string) : string :=
  match o with
  | Some c => if String.eqb c "" then "" else (prefixo ++ c)%string
  | None => ""
  end.

(** A field of a row built from the payload object [obj]: the value under
    [k] when the key is present, the sentinel when it is absent. *)
Definition valor_ou_sentinela (obj : list (string * json)) (k : string)
  (v : json) : Prop :=
  match assoc k obj with
  | Some w => v = w
  | None => v = NA
  end.

(** A detail result without its ['name'] key. *)
Definition sem_nome (d : json) : json :=
  match d with
  | JObj kv => JObj (filter (fun p => negb (String.eqb (fst p) "name")) kv)
  | _ => d
  end.

Definition tirar_nome_resultado (kv : list (string * json))
  : list (string * json) :=
  map (fun p => if String.eqb (fst p) "result" then (fst p, sem_nome (snd p))
                else p) kv.

(** A detail response with the ['name'] of its ['result'] removed. *)
Definition sem_nome_detalhe (o : outcome) : outcome :=
  match o with
  | Body (JObj kv) => Body (JObj (tirar_nome_resultado kv))
  | _ => o
  end.

(** Two providers that answer every request alike, except that their
    detail responses may differ in the ['name'] of the result. *)
Definition difere_so_no_nome (p1 p2 : provider) : Prop :=
  forall h r,
    if String.eqb (fst r) detalhes_url
    then sem_nome_detalhe (p1 h r) = sem_nome_detalhe (p2 h r)
    else p1 h r = p2 h r.

(** ** Shapes, example inputs and providers used by the statements *)

(** [m] only appends to the log, whatever it returns. *)
Definition estende {A} (m : M A) : Prop :=
  forall s, match m s with
            | Ret _ s' | Exc s' => exists l, st_log s' = st_log s ++ l
            | NoFuel => True
            end.

(** Two providers whose detail results name the business differently. *)
Definition prov_com_nome (n : string) : provider := fun _ r =>
  if String.eqb (fst r) detalhes_url
  then Body (JObj [("status", JStr "OK");
                   ("result", JObj [("name", JStr n); ("website", JStr "w")])])
  else if String.eqb (fst r) geocode_url
  then Body (JObj [("status", JStr "OK");
                   ("results", JArr [JObj [("geometry", JObj [("location",
                      JObj [("lat", JNum 39); ("lng", JNum (-89))])])]])])
  else Body (JObj [("status", JStr "OK");
                   ("results", JArr [JObj [("name", JStr "Acme Ltda");
                                           ("place_id", JStr "p1")]])]).

(** The first page of a search: status OK, its hits and a token. *)
Definition pagina_ok (hits : list json) (tok : json) : json :=
  JObj [("status", JStr "OK"); ("results", JArr hits);
        ("next_page_token", tok)].

(** A hit with a name and a place id. *)
Definition hit_nomeado (n : string) : json :=
  JObj [("name", JStr n); ("place_id", JStr n)].

(** Page 1 holds one hit and a token; a request carrying a token gets
    [p2]; detail lookups answer NOT_FOUND. *)
Definition prov_paginas (p2 : outcome) : provider := fun _ r =>
  if String.eqb (fst r) detalhes_url
  then Body (JObj [("status", JStr "NOT_FOUND")])
  else match assoc "pagetoken" (snd r) with
       | Some _ => p2
       | None => Body (pagina_ok [hit_nomeado "A"] (JStr "t"))
       end.

Definition ps_exemplo : params :=
  textsearch_params (JStr "k") "X" None None None None.

(** The row the spreadsheet shows for a row of the search table, as the
    export is described: address, name, an empty contact, phone, website. *)
Definition linha_exportada (r : list json) : list json :=
  match r with
  | [nome; endereco; telefone; website] =>
      [endereco; nome; JStr ""; telefone; website]
  | _ => r
  end.

(** The shape of the tables the searches and the merge build. *)
Definition bem_formada (f : frame) : Prop :=
  (fcols f = cols_busca \/ (fcols f = [] /\ frows f = []))
  /\ Forall (fun r => length r = 4) (frows f).

(** Cells on which Python's [==] is structural equality: [None], strings
    and integers (a [bool] equals [0] or [1]; lists and dicts are not
    hashable). *)
Definition celula_simples (j : json) : bool :=
  match j with JNull | JStr _ | JNum _ => true | _ => false end.

(** Simple cells whose integers pandas keeps exact whatever the dtype of
    their column (int64 or float64): absolute value at most [2^53]. *)
Definition celula_exata (j : json) : bool :=
  match j with
  | JNull | JStr _ => true
  | JNum n => Z.leb (Z.abs n) (2 ^ 53)
  | _ => false
  end.

(** First occurrences, with the rows already met in [vistas]. *)
Fixpoint sem_repetidas (vistas l : list (list json)) : list (list json) :=
  match l with
  | [] => []
  | x :: r =>
      if in_dec linha_eq_dec x vistas then sem_repetidas (x :: vistas) r
      else x :: sem_repetidas (x :: vistas) r
  end.

(** Page 1 of the text search holds a hit named [n1], the only page of the
    nearby search a hit named [n2] and one named ["Outra"]; every detail
    result has the website [w]. *)
Definition prov_agregador (n1 n2 w : json) : provider := fun _ r =>
  if String.eqb (fst r) detalhes_url
  then Body (JObj [("status", JStr "OK"); ("result", JObj [("website", w)])])
  else if String.eqb (fst r) BASE_URL
  then Body (pagina_ok [JObj [("name", n1); ("place_id", JStr "p")]] JNull)
  else Body (pagina_ok [JObj [("name", n2); ("place_id", JStr "p")];
                        JObj [("name", JStr "Outra"); ("place_id", JStr "q")]]
                       JNull).

(** [params] after [if next_page_token: params['pagetoken'] = ...]. *)
Definition params_pagina (ps : params) (token : json) : params :=
  if truthy token then dict_set ps "pagetoken" token else ps.

(** The requests of a log made to [url], in order. *)
Definition pedidos_de (url : string) (h : list request) : list request :=
  filter (fun r => String.eqb (fst r) url) h.

(** The answer to a page request: the page, or a transport failure past
    the last page. *)
Definition resposta_pagina (p : option (list json * json)) : outcome :=
  match p with
  | Some (hits, tok) => Body (pagina_ok hits tok)
  | None => Transport
  end.

(** A hit the loop body processes without raising: an object whose
    ['geometry'] and its ['location'], when present, are objects. *)
Definition hit_bem_formado (hit : json) : Prop :=
  match hit with
  | JObj kv =>
      match dict_get kv "geometry" (JObj []) with
      | JObj gkv =>
          match dict_get gkv "location" (JObj []) with
          | JObj _ => True
          | _ => False
          end
      | _ => False
      end
  | _ => False
  end.

(** A detail answer whose OK result is an object or a falsy value. *)
Definition detalhe_bom (o : outcome) : Prop :=
  match o with
  | Body (JObj kv) =>
      forall st v, assoc "status" kv = Some st -> is_ok st = true ->
      assoc "result" kv = Some v ->
      (exists rkv, v = JObj rkv) \/ truthy v = false
  | _ => True
  end.

(** Every page but the last carries a truthy token, the last a falsy one. *)
Definition tokens_encadeados (paginas : list (list json * json)) : Prop :=
  paginas <> []
  /\ forall i p, nth_error paginas i = Some p ->
       (truthy (snd p) = true <-> S i < length paginas).

(** A provider answering the [k]-th request to [url] of a log with page [k]
    of [paginas], and every other request with [outro]. *)
Definition prov_por_contagem (url : string) (paginas : list (list json * json))
  (outro : outcome) : provider := fun h r =>
  if String.eqb (fst r) url
  then resposta_pagina (nth_error paginas (length (pedidos_de url h)))
  else outro.

Definition paginas_exemplo : list (list json * json) :=
  [([hit_nomeado "A"], JStr "t"); ([hit_nomeado "B"], JNull)].

Definition detalhe_exemplo : outcome :=
  Body (JObj [("status", JStr "OK"); ("result", JObj [("website", JStr "w")])]).

(** ** Shapes used by the statements on [converter_horarios] and on the
    requests of a run *)

(** The abbreviations of [l] in order of first occurrence: the insertion
    order of the dict [horarios_convertidos]. *)
Definition distintos (l : list string) : list string :=
  rev (nodup string_dec (rev l)).

(** The label the loop of lines 244-253 gives to a group of [k] copies of
    the abbreviation [a]. *)
Definition rotulo (a : string) (k : nat) : string :=
  if Nat.eqb k 7 then "SEG-DOM"
  else if Nat.eqb k 6 && negb (String.eqb "DOM" a) then "SEG-SAB"
  else if Nat.eqb k 5 && negb (String.eqb "SAB" a) && negb (String.eqb "DOM" a)
  then "SEG-SEX"
  else if Nat.ltb 1 k then (a ++ "-" ++ a)%string
  else a.

(** The dict [horarios_convertidos] after the abbreviations [l]: each
    distinct abbreviation, first-seen order, with as many copies of itself
    as it occurs in [l]. *)
Definition grupos (l : list string) : list (string * list string) :=
  map (fun a => (a, repeat a (count_occ string_dec l a))) (distintos l).

(** [m] only appends to the log, and every request it appends satisfies
    [P]. *)
Definition registra {A} (P : request -> Prop) (m : M A) : Prop :=
  forall s, match m s with
            | Ret _ s' | Exc s' =>
                exists l, st_log s' = st_log s ++ l /\ Forall P l
            | NoFuel => True
            end.

Definition urls_busca : list string := [BASE_URL; nearby_url; detalhes_url].

(** A request to one of the Places endpoints whose params carry the key. *)
Definition pedido_com_chave (key : json) (r : request) : Prop :=
  In (fst r) urls_busca /\ assoc "key" (snd r) = Some key.

(** Geocoding succeeds, detail lookups answer NOT_FOUND, and both searches
    return one page with one hit whose name is [nome]. *)
Definition prov_celula (nome : json) : provider := fun _ r =>
  if String.eqb (fst r) geocode_url
  then Body (JObj [("status", JStr "OK");
                   ("results", JArr [JObj [("geometry", JObj [("location",
                      JObj [("lat", JNum 39); ("lng", JNum (-89))])])]])])
  else if String.eqb (fst r) detalhes_url
  then Body (JObj [("status", JStr "NOT_FOUND")])
  else Body (pagina_ok [JObj [("name", nome); ("place_id", JStr "p")]] JNull).

(** [resultado.get('place_id', 'N/A')] of a hit. *)
Definition place_id_de (hit : json) : json :=
  match hit with JObj kv => dict_get kv "place_id" NA | _ => NA end.

(** A request of a search started with [ps] at [url]: a page request whose
    params agree with [ps] on every key but ['pagetoken'], or a detail
    lookup. *)
Definition pedido_da_busca (key : json) (url : string) (ps : params)
  (r : request) : Prop :=
  (fst r = url /\ forall k, k <> "pagetoken" -> assoc k (snd r) = assoc k ps)
  \/ (fst r = detalhes_url /\ exists pid, snd r = detalhes_params key pid).

(** ** Lemmas about the monad and the Python helpers *)

Lemma assoc_dict_set_eq : forall kv k v, assoc k (dict_set kv k v) = Some v.
Proof.
  induction kv as [|[k' v'] r IH]; intros k v; simpl.
  - rewrite String.eqb_refl. reflexivity.
  - destruct (String.eqb k' k) eqn:E; simpl.
    + rewrite String.eqb_refl. reflexivity.
    + rewrite E. apply IH.
Qed.

Lemma assoc_dict_set_neq : forall kv k k' v,
  k' <> k -> assoc k' (dict_set kv k v) = assoc k' kv.
Proof.
  induction kv as [|[k0 v0] r IH]; intros k k' v Hne; simpl.
  - apply String.eqb_neq in Hne. rewrite String.eqb_sym, Hne. reflexivity.
  - destruct (String.eqb k0 k) eqn:E; simpl.
    + apply String.eqb_eq in E. subst k0.
      apply String.eqb_neq in Hne. rewrite String.eqb_sym, Hne. reflexivity.
    + rewrite IH by exact Hne. reflexivity.
Qed.

(** ** C5: the detail enricher *)

(** C5. [obter_detalhes_por_place_id] issues exactly one request and never
    raises; it returns the provider's ['result'] object when the status is
    OK, [{}] on a non-OK status or a transport failure; the caller turns an
    object result into its phone, website and name, each ["N/A"] when
    absent, and the empty result into ["N/A"] three times. *)
Theorem obter_detalhes_contrato :
  forall (prov : provider) (API_KEY place_id : json) (s : st),
    let r := (detalhes_url, detalhes_params API_KEY place_id) in
    let s' := mkSt (st_log s ++ [r]) (st_acc s) in
    (exists d, obter_detalhes_por_place_id prov API_KEY place_id s = Ret d s')
    /\ (forall kv resultado,
          prov (st_log s) r = Body (JObj kv) ->
          assoc "status" kv = Some (JStr "OK") ->
          assoc "result" kv = Some resultado ->
          obter_detalhes_por_place_id prov API_KEY place_id s = Ret resultado s')
    /\ (forall kv status,
          prov (st_log s) r = Body (JObj kv) ->
          assoc "status" kv = Some status -> is_ok status = false ->
          obter_detalhes_por_place_id prov API_KEY place_id s = Ret (JObj []) s')
    /\ (prov (st_log s) r = Transport ->
        obter_detalhes_por_place_id prov API_KEY place_id s = Ret (JObj []) s')
    /\ (forall (rkv : list (string * json)) (s0 : st),
          campos_detalhes (JObj rkv) s0 =
          Ret (dict_get rkv "formatted_phone_number" NA,
               dict_get rkv "website" NA, dict_get rkv "name" NA) s0)
    /\ (forall (rkv : list (string * json)) k,
          assoc k rkv = None -> dict_get rkv k NA = NA)
    /\ (forall s0 : st, campos_detalhes (JObj []) s0 = Ret (NA, NA, NA) s0).
Proof.
  intros prov key pid s r s'.
  unfold obter_detalhes_por_place_id, try_catch, bind, http_get.
  fold r. fold s'.
  repeat split.
  - destruct (prov (st_log s) r) as [|dados]; [eexists; reflexivity|].
    unfold py_getitem, ret, raise.
    destruct dados; try (eexists; reflexivity).
    destruct (assoc "status" kv) as [status|]; [|eexists; reflexivity].
    destruct (is_ok status); [|eexists; reflexivity].
    destruct (assoc "result" kv); eexists; reflexivity.
  - intros kv res Hp Hs Hr. rewrite Hp. simpl. rewrite Hs. simpl.
    rewrite Hr. reflexivity.
  - intros kv status Hp Hs Hok. rewrite Hp. simpl. rewrite Hs. simpl.
    rewrite Hok. reflexivity.
  - intros Hp. rewrite Hp. reflexivity.
  - intros rkv s0. unfold campos_detalhes.
    destruct rkv as [|p rkv]; reflexivity.
  - intros rkv k H. unfold dict_get. rewrite H. reflexivity.
Qed.

(** ** The log only grows *)

Lemma estende_ret : forall A (a : A), estende (ret a).
Proof. intros A a s. exists []. rewrite app_nil_r. reflexivity. Qed.

Lemma estende_raise : forall A, estende (@raise A).
Proof. intros A s. exists []. rewrite app_nil_r. reflexivity. Qed.

Lemma estende_bind : forall A B (m : M A) (k : A -> M B),
  estende m -> (forall a, estende (k a)) -> estende (bind m k).
Proof.
  intros A B m k Hm Hk s. unfold bind. specialize (Hm s).
  destruct (m s) as [a s1|s1|]; auto.
  destruct Hm as [l1 E1]. specialize (Hk a s1).
  destruct (k a s1) as [b s2|s2|]; auto;
    destruct Hk as [l2 E2]; exists (l1 ++ l2);
    rewrite E2, E1, app_assoc; reflexivity.
Qed.

Lemma estende_try_catch : forall A (m h : M A),
  estende m -> estende h -> estende (try_catch m h).
Proof.
  intros A m h Hm Hh s. unfold try_catch. specialize (Hm s).
  destruct (m s) as [a s1|s1|]; auto.
  destruct Hm as [l1 E1]. specialize (Hh s1).
  destruct (h s1) as [b s2|s2|]; auto;
    destruct Hh as [l2 E2]; exists (l1 ++ l2);
    rewrite E2, E1, app_assoc; reflexivity.
Qed.

Lemma estende_http_get : forall prov url ps, estende (http_get prov url ps).
Proof.
  intros prov url ps s. unfold http_get.
  destruct (prov (st_log s) (url, ps)); simpl; eexists; reflexivity.
Qed.

Lemma estende_append_row : forall r, estende (append_row r).
Proof. intros r s. exists []. simpl. rewrite app_nil_r. reflexivity. Qed.

Lemma estende_py_getitem : forall d k, estende (py_getitem d k).
Proof.
  intros [] k; simpl; try apply estende_raise.
  destruct (assoc k kv); [apply estende_ret | apply estende_raise].
Qed.

Lemma estende_py_get : forall d k dflt, estende (py_get d k dflt).
Proof. intros [] k dflt; simpl; auto using estende_ret, estende_raise. Qed.

Lemma estende_py_iter : forall d, estende (py_iter d).
Proof. intros []; simpl; auto using estende_ret, estende_raise. Qed.

Lemma estende_py_index0 : forall d, estende (py_index0 d).
Proof.
  intros [| | | [|c r] | [|x r] |]; simpl;
    auto using estende_ret, estende_raise.
Qed.

Create HintDb estende_db.
#[export] Hint Resolve estende_ret estende_raise estende_bind
  estende_try_catch estende_http_get estende_append_row estende_py_getitem
  estende_py_get estende_py_iter estende_py_index0 : estende_db.

Ltac estende_auto :=
  repeat match goal with
         | |- estende (bind _ _) => apply estende_bind; [|intro]
         | |- estende (try_catch _ _) => apply estende_try_catch
         | |- estende (if ?b then _ else _) => destruct b
         | |- estende (let '(_, _) := ?p in _) => destruct p
         | |- estende (match ?x with _ => _ end) => destruct x
         | |- _ => solve [auto with estende_db]
         end.

Lemma estende_obter_detalhes : forall prov key pid,
  estende (obter_detalhes_por_place_id prov key pid).
Proof. intros. unfold obter_detalhes_por_place_id. estende_auto. Qed.

Lemma estende_campos_detalhes : forall d, estende (campos_detalhes d).
Proof. intros. unfold campos_detalhes. estende_auto. Qed.

#[export] Hint Resolve estende_obter_detalhes estende_campos_detalhes
  : estende_db.

Lemma estende_processar : forall prov key addr hit,
  estende (processar_resultado prov key addr hit).
Proof. intros. unfold processar_resultado. estende_auto. Qed.

Lemma estende_mapM_ : forall A (f : A -> M unit) l,
  (forall x, estende (f x)) -> estende (mapM_ f l).
Proof.
  intros A f l Hf. induction l as [|x r IH]; simpl; estende_auto.
Qed.

#[export] Hint Resolve estende_processar : estende_db.

Lemma estende_paginar : forall prov key url addr fuel ps tok,
  estende (paginar prov key url addr fuel ps tok).
Proof.
  intros prov key url addr fuel. induction fuel as [|n IH]; intros ps tok.
  - intros s. simpl. exact I.
  - simpl. estende_auto. apply estende_mapM_. intro. apply estende_processar.
Qed.

Lemma http_get_bind_log : forall prov url ps B (k : json -> M B) s,
  (forall a, estende (k a)) ->
  match bind (http_get prov url ps) k s with
  | Ret _ s' | Exc s' => exists l, st_log s' = st_log s ++ (url, ps) :: l
  | NoFuel => True
  end.
Proof.
  intros prov url ps B k s Hk. unfold bind, http_get.
  destruct (prov (st_log s) (url, ps)) as [|dados].
  - exists []. reflexivity.
  - specialize (Hk dados (mkSt (st_log s ++ [(url, ps)]) (st_acc s))).
    destruct (k dados _); auto; destruct Hk as [l E]; exists l;
      rewrite E; simpl; rewrite <- app_assoc; reflexivity.
Qed.

(** The first request of a page loop is the page request with the current
    params. *)
Lemma paginar_primeiro_pedido : forall prov key url addr n ps s,
  match paginar prov key url addr (S n) ps JNull s with
  | Ret _ s' | Exc s' => exists l, st_log s' = st_log s ++ (url, ps) :: l
  | NoFuel => True
  end.
Proof.
  intros. cbn [paginar truthy negb].
  apply http_get_bind_log. intro.
  estende_auto. apply estende_mapM_. intro. apply estende_processar.
  apply estende_paginar.
Qed.

Ltac destruct_matches :=
  repeat match goal with
         | |- context [match ?x with _ => _ end] =>
             lazymatch x with
             | context [match _ with _ => _ end] => fail
             | _ => destruct x
             end
         end.

Lemma obter_coordenadas_um_pedido : forall prov key py_str cidade estado s,
  exists o, obter_coordenadas prov key py_str cidade estado s =
            Ret o (mkSt (st_log s ++ [(geocode_url, geocode_params key cidade estado)])
                        (st_acc s)).
Proof.
  intros. unfold obter_coordenadas, try_catch, bind, http_get, py_getitem,
    py_index0, ret, raise.
  destruct_matches; eexists; reflexivity.
Qed.

Lemma str_app_assoc : forall a b c : string,
  (a ++ (b ++ c))%string = ((a ++ b) ++ c)%string.
Proof. induction a as [|x a IH]; intros; simpl; [|rewrite IH]; reflexivity. Qed.

Lemma str_app_nil_r : forall a : string, (a ++ "")%string = a.
Proof. induction a as [|x a IH]; simpl; [|rewrite IH]; reflexivity. Qed.

Lemma acrescimo_fornecido : forall p o,
  acrescimo p o = match fornecido o with
                  | Some c => (p ++ c)%string
                  | None => ""
                  end.
Proof. intros p [c|]; simpl; [destruct (String.eqb c "")|]; reflexivity. Qed.

Lemma anexar_opcional_query : forall ps q prefixo o,
  assoc "query" ps = Some (JStr q) ->
  assoc "query" (anexar_opcional ps prefixo o) =
  Some (JStr (q ++ acrescimo prefixo o)%string).
Proof.
  intros ps q prefixo o H. unfold anexar_opcional, anexar_query.
  rewrite acrescimo_fornecido.
  destruct (fornecido o).
  - rewrite assoc_dict_set_eq. unfold query_de. rewrite H. reflexivity.
  - rewrite H, str_app_nil_r. reflexivity.
Qed.

Lemma anexar_opcional_outra : forall ps k prefixo o,
  k <> "query" -> assoc k (anexar_opcional ps prefixo o) = assoc k ps.
Proof.
  intros ps k prefixo o H. unfold anexar_opcional, anexar_query.
  destruct (fornecido o); [apply assoc_dict_set_neq; congruence | reflexivity].
Qed.

(** ** C7: the coordinate resolver *)

(** C7. [obter_coordenadas] issues exactly one geocoding request and never
    raises; on status OK it returns the first candidate's latitude and
    longitude as ["lat,lng"], on another status or a transport failure it
    returns [None]. *)
Theorem obter_coordenadas_contrato :
  forall (prov : provider) (API_KEY : json) (py_str : json -> string)
         (cidade estado : string) (s : st),
    let r := (geocode_url, geocode_params API_KEY cidade estado) in
    let s' := mkSt (st_log s ++ [r]) (st_acc s) in
    (exists o, obter_coordenadas prov API_KEY py_str cidade estado s = Ret o s')
    /\ (forall kv primeiro resto fkv gkv lkv lat lng,
          prov (st_log s) r = Body (JObj kv) ->
          assoc "status" kv = Some (JStr "OK") ->
          assoc "results" kv = Some (JArr (primeiro :: resto)) ->
          primeiro = JObj fkv ->
          assoc "geometry" fkv = Some (JObj gkv) ->
          assoc "location" gkv = Some (JObj lkv) ->
          assoc "lat" lkv = Some lat -> assoc "lng" lkv = Some lng ->
          obter_coordenadas prov API_KEY py_str cidade estado s =
          Ret (Some (py_str lat ++ "," ++ py_str lng)%string) s')
    /\ (forall kv status,
          prov (st_log s) r = Body (JObj kv) ->
          assoc "status" kv = Some status -> is_ok status = false ->
          obter_coordenadas prov API_KEY py_str cidade estado s = Ret None s')
    /\ (prov (st_log s) r = Transport ->
        obter_coordenadas prov API_KEY py_str cidade estado s = Ret None s').
Proof.
  intros prov key py_str cidade estado s. cbv zeta.
  split; [apply obter_coordenadas_um_pedido|].
  unfold obter_coordenadas, try_catch, bind, http_get.
  repeat split.
  - intros kv primeiro resto fkv gkv lkv lat lng Hp Hs Hr Hf Hg Hl Hlat Hlng.
    subst primeiro. rewrite Hp. simpl. rewrite Hs. simpl. rewrite Hr. simpl.
    rewrite Hg. simpl. rewrite Hl. simpl. rewrite Hlat. simpl. rewrite Hlng.
    reflexivity.
  - intros kv status Hp Hs Hok. rewrite Hp. simpl. rewrite Hs. simpl.
    rewrite Hok. reflexivity.
  - intros Hp. rewrite Hp. reflexivity.
Qed.

(** ** C6: a failed geocoding aborts the run *)

(** C6. When [obter_coordenadas] returns [None], the top-level flow ends
    with nothing exported, and its log holds the geocoding request only:
    no text search, nearby search or detail request is issued. *)
Theorem main_sem_coordenadas_aborta :
  forall (prov : provider) (API_KEY : json) (py_str : json -> string)
         (fuel : nat) (cidade estado : string) (s s1 : st),
    obter_coordenadas prov API_KEY py_str cidade estado s = Ret None s1 ->
    main prov API_KEY py_str fuel cidade estado s = Ret None s1
    /\ st_log s1 = st_log s ++ [(geocode_url, geocode_params API_KEY cidade estado)].
Proof.
  intros prov key py_str fuel cidade estado s s1 H. split.
  - unfold main, bind at 1. rewrite H. reflexivity.
  - destruct (obter_coordenadas_um_pedido prov key py_str cidade estado s)
      as [o E].
    rewrite H in E. injection E as _ E. subst s1. reflexivity.
Qed.

Lemma main_sem_coordenadas_aborta_witness :
  let prov : provider := fun _ _ =>
    Body (JObj [("status", JStr "ZERO_RESULTS"); ("results", JArr [])]) in
  let s1 := mkSt [(geocode_url, geocode_params (JStr "k") "Springfield" "IL")] [] in
  obter_coordenadas prov (JStr "k") (fun _ => "") "Springfield" "IL"
    (mkSt [] []) = Ret None s1
  /\ (main prov (JStr "k") (fun _ => "") 3 "Springfield" "IL" (mkSt [] [])
        = Ret None s1
      /\ st_log s1 = [] ++ [(geocode_url,
                             geocode_params (JStr "k") "Springfield" "IL")]).
Proof.
  intros prov s1. split; [reflexivity|].
  apply (main_sem_coordenadas_aborta prov (JStr "k") (fun _ => "") 3
           "Springfield" "IL" (mkSt [] []) s1).
  reflexivity.
Defined.

(** ** C10: the parameters of the text search *)

(** C10. The text search sends the location and the radius too, when they
    are given (non-empty, non-zero), and appends [" in {cidade}"] and
    [", {estado}"] to the query when the city and the state are given; its
    first request is the page request with these params. *)
Theorem textsearch_params_contrato :
  forall (API_KEY : json) (razao_social : string) (localizacao : option string)
         (raio : option Z) (cidade estado : option string),
    let ps := textsearch_params API_KEY razao_social localizacao raio cidade estado in
    (forall l, localizacao = Some l -> l <> "" ->
               assoc "location" ps = Some (JStr l))
    /\ (forall r, raio = Some r -> r <> 0%Z -> assoc "radius" ps = Some (JNum r))
    /\ assoc "query" ps =
       Some (JStr (razao_social ++ acrescimo " in " cidade
                   ++ acrescimo ", " estado)%string)
    /\ (forall prov fuel s f s',
          buscar_textsearch prov API_KEY fuel razao_social localizacao raio
            cidade estado s = Ret f s' ->
          exists novos, st_log s' = st_log s ++ (BASE_URL, ps) :: novos).
Proof.
  intros key razao loc raio cidade estado ps.
  repeat split.
  - intros l Hl Hne. subst loc. unfold ps, textsearch_params. cbv zeta.
    rewrite !anexar_opcional_outra by discriminate.
    apply String.eqb_neq in Hne.
    assert (F : fornecido (Some l) = Some l) by (simpl; rewrite Hne; reflexivity).
    rewrite F.
    destruct raio as [r|]; [destruct (Z.eqb r 0)|]; reflexivity.
  - intros r Hr Hne. subst raio. unfold ps, textsearch_params. cbv zeta.
    rewrite !anexar_opcional_outra by discriminate.
    apply Z.eqb_neq in Hne. rewrite Hne.
    destruct (fornecido loc); reflexivity.
  - unfold ps, textsearch_params. cbv zeta.
    rewrite str_app_assoc.
    apply anexar_opcional_query, anexar_opcional_query.
    destruct (fornecido loc); destruct raio as [r|];
      try destruct (Z.eqb r 0); reflexivity.
  - intros prov fuel s f s' H. fold ps in H.
    unfold buscar_textsearch, buscar, try_catch in H. fold ps in H.
    destruct fuel as [|n]; [discriminate|].
    pose proof (paginar_primeiro_pedido prov key BASE_URL "formatted_address"
                  n ps (mkSt (st_log s) [])) as P.
    destruct (paginar prov key BASE_URL "formatted_address" (S n) ps JNull
                (mkSt (st_log s) [])) as [u s2|s2|]; try discriminate;
      injection H as _ H; subst s'; simpl; exact P.
Qed.

(** ** One search hit *)

Lemma obter_detalhes_um_pedido : forall prov key pid s,
  exists d, obter_detalhes_por_place_id prov key pid s =
            Ret d (mkSt (st_log s ++ [(detalhes_url, detalhes_params key pid)])
                        (st_acc s)).
Proof.
  intros. unfold obter_detalhes_por_place_id, try_catch, bind, http_get,
    py_getitem, ret, raise.
  destruct_matches; eexists; reflexivity.
Qed.

Lemma campos_detalhes_obj : forall (rkv : list (string * json)) s,
  campos_detalhes (JObj rkv) s =
  Ret (dict_get rkv "formatted_phone_number" NA, dict_get rkv "website" NA,
       dict_get rkv "name" NA) s.
Proof. intros [|p rkv] s; reflexivity. Qed.

Lemma campos_detalhes_falso : forall d s,
  truthy d = false -> campos_detalhes d s = Ret (NA, NA, NA) s.
Proof. intros d s H. unfold campos_detalhes. rewrite H. reflexivity. Qed.

Ltac destruct_in H :=
  repeat (cbn beta iota in H;
          match type of H with
          | context [match ?x with _ => _ end] =>
              lazymatch x with
              | context [match _ with _ => _ end] => fail
              | obter_detalhes_por_place_id _ _ _ _ => fail
              | campos_detalhes _ _ => fail
              | _ => let E := fresh "E" in destruct x eqn:E; try discriminate H
              end
          end).

(** What a processed hit appends: the hit's own name and address, the
    phone and website of the detail result (["N/A"] when absent or when
    the result is empty). *)
Lemma processar_resultado_linha : forall prov key addr hit s s',
  processar_resultado prov key addr hit s = Ret tt s' ->
  exists kv d s1 r,
    hit = JObj kv
    /\ obter_detalhes_por_place_id prov key (dict_get kv "place_id" NA) s
       = Ret d s1
    /\ st_log s' = st_log s1
    /\ st_acc s' = st_acc s ++ [r]
    /\ Nome r = dict_get kv "name" NA
    /\ Endereco r = dict_get kv addr NA
    /\ (if truthy d
        then exists dkv, d = JObj dkv
             /\ Telefone r = dict_get dkv "formatted_phone_number" NA
             /\ Website r = dict_get dkv "website" NA
        else Telefone r = NA /\ Website r = NA).
Proof.
  intros prov key addr hit s s' H.
  destruct (obter_detalhes_um_pedido prov key (match hit with
    | JObj kv => dict_get kv "place_id" NA | _ => NA end) s) as [d Ed].
  unfold processar_resultado, bind, py_get, ret, raise in H.
  destruct hit as [| | | | |kv]; try discriminate H.
  destruct_in H; rewrite Ed in H; cbn beta iota in H;
  (destruct (truthy d) eqn:T;
   [ destruct d as [| | | | |dkv]; try discriminate T;
     try (unfold campos_detalhes in H; rewrite T in H; simpl in H;
          discriminate H);
     rewrite campos_detalhes_obj in H
   | rewrite campos_detalhes_falso in H by exact T ]);
  unfold append_row in H; injection H as <-;
  do 4 eexists; (split; [reflexivity|]); (split; [exact Ed|]);
  rewrite T; simpl; repeat split; try reflexivity;
  eexists; repeat split.
Qed.

(** ** C2: the fields of a row *)

(** C2 (as amended). A successfully processed hit appends one row whose
    four fields are all set: name and address are the hit's values under
    ['name'] and the address key, phone and website the detail result's
    values under ['formatted_phone_number'] and ['website'] (the empty
    object when the lookup gave an empty result); each is the payload's
    value when the key is present, whatever JSON value it is, and ["N/A"]
    when the key is absent. *)
Theorem linha_campos_do_payload :
  forall (prov : provider) (API_KEY : json) (chave_endereco : string)
         (hit : json) (s s' : st),
    processar_resultado prov API_KEY chave_endereco hit s = Ret tt s' ->
    exists kv dkv r s1,
      hit = JObj kv
      /\ (obter_detalhes_por_place_id prov API_KEY (dict_get kv "place_id" NA) s
            = Ret (JObj dkv) s1
          \/ exists d, obter_detalhes_por_place_id prov API_KEY
                         (dict_get kv "place_id" NA) s = Ret d s1
                       /\ truthy d = false /\ dkv = [])
      /\ st_acc s' = st_acc s ++ [r]
      /\ valor_ou_sentinela kv "name" (Nome r)
      /\ valor_ou_sentinela kv chave_endereco (Endereco r)
      /\ valor_ou_sentinela dkv "formatted_phone_number" (Telefone r)
      /\ valor_ou_sentinela dkv "website" (Website r).
Proof.
  intros prov key addr hit s s' H.
  destruct (processar_resultado_linha prov key addr hit s s' H)
    as (kv & d & s1 & r & Eh & Ed & _ & Ea & En & Ee & Et).
  assert (V : forall obj k, valor_ou_sentinela obj k (dict_get obj k NA))
    by (intros obj k; unfold valor_ou_sentinela, dict_get;
        destruct (assoc k obj); reflexivity).
  destruct (truthy d) eqn:T.
  - destruct Et as (dkv & -> & Tt & Tw).
    exists kv, dkv, r, s1. rewrite En, Ee, Tt, Tw.
    repeat split; auto.
  - destruct Et as [Tt Tw].
    exists kv, [], r, s1. rewrite En, Ee, Tt, Tw.
    repeat split; auto. right. exists d. auto.
Qed.

(** C2 fails as stated: a ['name'] present with the value [null] gives a
    null field in the table of the text search. *)
Lemma linha_com_nome_nulo :
  let prov : provider := fun _ r =>
    if String.eqb (fst r) BASE_URL
    then Body (JObj [("status", JStr "OK");
                     ("results", JArr [JObj [("name", JNull);
                                             ("place_id", JStr "p1")]])])
    else Transport in
  exists s',
    buscar_textsearch prov (JStr "k") 1 "Acme" None None None None
      (mkSt [] []) = Ret (mkFrame cols_busca [[JNull; NA; NA; NA]]) s'.
Proof. intros prov. eexists. vm_compute. reflexivity. Qed.

(** ** Runs that differ only in the name of the detail result *)

Lemma bind_cong : forall A B (m1 m2 : M A) (k1 k2 : A -> M B),
  (forall s, m1 s = m2 s) -> (forall a s, k1 a s = k2 a s) ->
  forall s, bind m1 k1 s = bind m2 k2 s.
Proof.
  intros A B m1 m2 k1 k2 Hm Hk s. unfold bind. rewrite Hm.
  destruct (m2 s); auto.
Qed.

Lemma assoc_tirar_nome : forall kv k,
  assoc k (tirar_nome_resultado kv) =
  if String.eqb k "result" then option_map sem_nome (assoc k kv)
  else assoc k kv.
Proof.
  induction kv as [|[k' v] r IH]; intros k; simpl.
  - destruct (String.eqb k "result"); reflexivity.
  - destruct (String.eqb k' "result") eqn:E1; simpl;
      destruct (String.eqb k' k) eqn:E2; rewrite ?IH; try reflexivity.
    + apply String.eqb_eq in E1, E2. subst. rewrite String.eqb_refl.
      reflexivity.
    + apply String.eqb_eq in E2. subst. rewrite E1. reflexivity.
Qed.

Lemma dict_get_sem_nome : forall kv k dflt,
  k <> "name" ->
  dict_get (filter (fun p => negb (String.eqb (fst p) "name")) kv) k dflt =
  dict_get kv k dflt.
Proof.
  intros kv k dflt Hk. unfold dict_get.
  induction kv as [|[k' v] r IH]; simpl; [reflexivity|].
  destruct (String.eqb k' "name") eqn:E; simpl.
  - apply String.eqb_eq in E. subst k'.
    assert (N : String.eqb "name" k = false)
      by (apply String.eqb_neq; congruence).
    rewrite N. exact IH.
  - destruct (String.eqb k' k); [reflexivity | exact IH].
Qed.

Section MesmoSemNome.

Variables p1 p2 : provider.
Hypothesis Hp : difere_so_no_nome p1 p2.
Variable API_KEY : json.

Lemma http_get_outro : forall url ps s,
  url <> detalhes_url -> http_get p1 url ps s = http_get p2 url ps s.
Proof.
  intros url ps s Hu. unfold http_get.
  specialize (Hp (st_log s) (url, ps)). simpl in Hp.
  apply String.eqb_neq in Hu. rewrite Hu in Hp. rewrite Hp. reflexivity.
Qed.

Lemma obter_detalhes_sem_nome : forall pid s,
  exists d1 d2 s1,
    obter_detalhes_por_place_id p1 API_KEY pid s = Ret d1 s1
    /\ obter_detalhes_por_place_id p2 API_KEY pid s = Ret d2 s1
    /\ sem_nome d1 = sem_nome d2.
Proof.
  intros pid s.
  pose proof (Hp (st_log s) (detalhes_url, detalhes_params API_KEY pid)) as H.
  simpl in H.
  unfold obter_detalhes_por_place_id, try_catch, bind, http_get.
  destruct (p1 (st_log s) _) as [|j1], (p2 (st_log s) _) as [|j2];
    simpl in H; try (destruct j1; discriminate H);
    try (destruct j2; discriminate H).
  - do 3 eexists; split; [reflexivity|]; split; reflexivity.
  - destruct j1 as [| | | | |kv1], j2 as [| | | | |kv2]; try discriminate H;
      try (do 3 eexists; split; [reflexivity|]; split; reflexivity);
      try (injection H as <-; do 3 eexists; split; [reflexivity|];
           split; reflexivity).
    injection H as H.
    assert (Hs : assoc "status" kv1 = assoc "status" kv2).
    { pose proof (assoc_tirar_nome kv1 "status") as A1.
      pose proof (assoc_tirar_nome kv2 "status") as A2.
      simpl in A1, A2. rewrite <- A1, <- A2, H. reflexivity. }
    assert (Hr : option_map sem_nome (assoc "result" kv1) =
                 option_map sem_nome (assoc "result" kv2)).
    { pose proof (assoc_tirar_nome kv1 "result") as A1.
      pose proof (assoc_tirar_nome kv2 "result") as A2.
      simpl in A1, A2. rewrite <- A1, <- A2, H. reflexivity. }
    unfold py_getitem, ret, raise. rewrite Hs.
    destruct (assoc "status" kv2) as [st|];
      [|do 3 eexists; split; [reflexivity|]; split; reflexivity].
    destruct (is_ok st);
      [|do 3 eexists; split; [reflexivity|]; split; reflexivity].
    destruct (assoc "result" kv1) as [r1|], (assoc "result" kv2) as [r2|];
      simpl in Hr; try discriminate Hr;
      try (injection Hr as Hr);
      (do 3 eexists; split; [reflexivity|]; split; [reflexivity|]; auto).
Qed.

Lemma campos_detalhes_sem_nome : forall d1 d2 s,
  sem_nome d1 = sem_nome d2 ->
  (exists t w x y s', campos_detalhes d1 s = Ret (t, w, x) s'
                      /\ campos_detalhes d2 s = Ret (t, w, y) s')
  \/ (exists s', campos_detalhes d1 s = Exc s' /\ campos_detalhes d2 s = Exc s').
Proof.
  intros d1 d2 s H.
  assert (G : forall d, (exists t w x s', campos_detalhes d s = Ret (t, w, x) s')
                        \/ (exists s', campos_detalhes d s = Exc s')).
  { intros d. unfold campos_detalhes. destruct (truthy d).
    - destruct d; simpl; [right; eexists; reflexivity ..|].
      left. do 4 eexists. reflexivity.
    - left. do 4 eexists. reflexivity. }
  destruct d1 as [| | | | |r1], d2 as [| | | | |r2];
    simpl in H; try discriminate H;
    try (first [injection H as <- | idtac];
         match goal with
         | |- context [campos_detalhes ?d _] =>
             destruct (G d) as [(t & w & x & s' & E)|(s' & E)]
         end;
         [left; exists t, w, x, x, s' | right; exists s']; split; exact E).
  injection H as H. left.
  rewrite !campos_detalhes_obj.
  rewrite <- (dict_get_sem_nome r1 "formatted_phone_number"),
          <- (dict_get_sem_nome r1 "website"), H,
          (dict_get_sem_nome r2 "formatted_phone_number"),
          (dict_get_sem_nome r2 "website") by discriminate.
  do 5 eexists. split; reflexivity.
Qed.

Lemma processar_sem_nome : forall addr hit s,
  processar_resultado p1 API_KEY addr hit s =
  processar_resultado p2 API_KEY addr hit s.
Proof.
  intros addr hit s. unfold processar_resultado.
  do 9 (apply bind_cong; [reflexivity|]; intros ? ?; cbv beta).
  match goal with
  | |- bind (obter_detalhes_por_place_id _ _ ?pid) _ ?st = _ =>
      destruct (obter_detalhes_sem_nome pid st) as (d1 & d2 & sd & E1 & E2 & Hn)
  end.
  unfold bind. rewrite E1, E2.
  destruct (campos_detalhes_sem_nome d1 d2 sd Hn)
    as [(t & w & x & y & s' & C1 & C2)|(s' & C1 & C2)];
    rewrite C1, C2; reflexivity.
Qed.

Lemma mapM_processar_sem_nome : forall addr itens s,
  mapM_ (processar_resultado p1 API_KEY addr) itens s =
  mapM_ (processar_resultado p2 API_KEY addr) itens s.
Proof.
  intros addr itens. induction itens as [|x r IH]; intros s; [reflexivity|].
  simpl. apply bind_cong; [apply processar_sem_nome | intros; apply IH].
Qed.

Lemma paginar_sem_nome : forall url addr fuel ps tok s,
  url <> detalhes_url ->
  paginar p1 API_KEY url addr fuel ps tok s =
  paginar p2 API_KEY url addr fuel ps tok s.
Proof.
  intros url addr fuel. induction fuel as [|n IH]; intros ps tok s Hu;
    [reflexivity|].
  simpl. apply bind_cong; [intro; apply http_get_outro; exact Hu|].
  intros dados ?. cbv beta.
  apply bind_cong; [reflexivity|]. intros status ?. cbv beta.
  destruct (is_ok status); [|reflexivity].
  do 2 (apply bind_cong; [reflexivity|]; intros ? ?; cbv beta).
  apply bind_cong; [apply mapM_processar_sem_nome|]. intros ? ?. cbv beta.
  apply bind_cong; [reflexivity|]. intros tok' ?. cbv beta.
  destruct (truthy tok'); [apply IH; exact Hu | reflexivity].
Qed.

Lemma buscar_sem_nome : forall url addr ps fuel s,
  url <> detalhes_url ->
  buscar p1 API_KEY url addr ps fuel s = buscar p2 API_KEY url addr ps fuel s.
Proof.
  intros url addr ps fuel s Hu. unfold buscar, try_catch.
  rewrite paginar_sem_nome by exact Hu. reflexivity.
Qed.

Lemma buscar_empresas_sem_nome : forall fuel razao loc raio cidade estado s,
  buscar_empresas_por_razao_social p1 API_KEY fuel razao loc raio cidade estado s
  = buscar_empresas_por_razao_social p2 API_KEY fuel razao loc raio cidade estado s.
Proof.
  intros. unfold buscar_empresas_por_razao_social.
  apply bind_cong.
  - intro. apply buscar_sem_nome. discriminate.
  - intros t s1. apply bind_cong; [|reflexivity].
    intro. apply buscar_sem_nome. discriminate.
Qed.

Lemma main_sem_nome : forall py_str fuel cidade estado s,
  main p1 API_KEY py_str fuel cidade estado s =
  main p2 API_KEY py_str fuel cidade estado s.
Proof.
  intros. unfold main.
  apply bind_cong.
  - intro s1. unfold obter_coordenadas, try_catch.
    erewrite bind_cong;
      [reflexivity | intro; apply http_get_outro; discriminate
      | intros; reflexivity].
  - intros l s1. destruct (fornecido l); [|reflexivity].
    apply bind_cong; [apply buscar_empresas_sem_nome | reflexivity].
Qed.

End MesmoSemNome.

(** ** C9: the name of a row is the search hit's name *)

(** C9. A row's name is the hit's own ['name'] (["N/A"] when absent); the
    detail result's name is bound but unused, so two providers that differ
    only in the ['name'] of their detail results give the same tables, the
    same requests and the same export, in each search, in their merge and
    in the whole run. *)
Theorem nome_vem_do_resultado_da_busca :
  (forall (prov : provider) (API_KEY : json) (chave_endereco : string)
          (hit : json) (s s' : st),
     processar_resultado prov API_KEY chave_endereco hit s = Ret tt s' ->
     exists kv r, hit = JObj kv /\ st_acc s' = st_acc s ++ [r]
                  /\ Nome r = dict_get kv "name" NA)
  /\ (forall (p1 p2 : provider) (API_KEY : json) (py_str : json -> string),
        difere_so_no_nome p1 p2 ->
        (forall fuel razao loc raio cidade estado s,
           buscar_textsearch p1 API_KEY fuel razao loc raio cidade estado s =
           buscar_textsearch p2 API_KEY fuel razao loc raio cidade estado s)
        /\ (forall fuel razao loc raio s,
              buscar_nearbysearch p1 API_KEY fuel razao loc raio s =
              buscar_nearbysearch p2 API_KEY fuel razao loc raio s)
        /\ (forall fuel razao loc raio cidade estado s,
              buscar_empresas_por_razao_social p1 API_KEY fuel razao loc raio
                cidade estado s =
              buscar_empresas_por_razao_social p2 API_KEY fuel razao loc raio
                cidade estado s)
        /\ (forall fuel cidade estado s,
              main p1 API_KEY py_str fuel cidade estado s =
              main p2 API_KEY py_str fuel cidade estado s)).
Proof.
  split.
  - intros prov key addr hit s s' H.
    destruct (processar_resultado_linha prov key addr hit s s' H)
      as (kv & d & s1 & r & Eh & _ & _ & Ea & En & _).
    exists kv, r. auto.
  - intros p1 p2 key py_str Hp. repeat split; intros.
    + apply buscar_sem_nome; [exact Hp | discriminate].
    + apply buscar_sem_nome; [exact Hp | discriminate].
    + apply buscar_empresas_sem_nome. exact Hp.
    + apply main_sem_nome. exact Hp.
Qed.

Lemma nome_vem_do_resultado_da_busca_witness :
  main (prov_com_nome "Acme Ltda") (JStr "k") (fun _ => "0") 2
    "Springfield" "IL" (mkSt [] [])
  = main (prov_com_nome "ACME LIMITADA") (JStr "k") (fun _ => "0") 2
      "Springfield" "IL" (mkSt [] []).
Proof.
  apply (proj2 nome_vem_do_resultado_da_busca
           (prov_com_nome "Acme Ltda") (prov_com_nome "ACME LIMITADA")
           (JStr "k") (fun _ => "0")).
  intros h [url ps]. unfold prov_com_nome. simpl.
  destruct (String.eqb url detalhes_url); [reflexivity|].
  destruct (String.eqb url geocode_url); reflexivity.
Defined.

(** ** C4: failures inside the page loop *)

(** C4 (as amended). A search never propagates an exception: when the
    page loop raises, the search returns the rows appended up to that
    point; a transport failure on a page fetch raises before any row of
    that page is appended, so OK page 1 followed by a transport failure on
    page 2 yields exactly the rows of page 1. *)
Theorem buscar_contem_falhas :
  forall (prov : provider) (API_KEY : json) (url chave_endereco : string)
         (ps : params) (fuel : nat) (s : st),
    (forall s', buscar prov API_KEY url chave_endereco ps fuel s <> Exc s')
    /\ (forall s', paginar prov API_KEY url chave_endereco fuel ps JNull
                     (mkSt (st_log s) []) = Exc s' ->
        buscar prov API_KEY url chave_endereco ps fuel s =
        Ret (frame_of_rows (st_acc s')) (mkSt (st_log s') (st_acc s)))
    /\ (forall n ps' tok s0,
          let ps'' : params :=
            if truthy tok then dict_set ps' "pagetoken" tok else ps' in
          prov (st_log s0) (url, ps'') = Transport ->
          paginar prov API_KEY url chave_endereco (S n) ps' tok s0 =
          Exc (mkSt (st_log s0 ++ [(url, ps'')]) (st_acc s0)))
    /\ (forall n hits tok s1,
          truthy tok = true ->
          prov (st_log s) (url, ps) = Body (pagina_ok hits tok) ->
          mapM_ (processar_resultado prov API_KEY chave_endereco) hits
            (mkSt (st_log s ++ [(url, ps)]) []) = Ret tt s1 ->
          prov (st_log s1) (url, dict_set ps "pagetoken" tok) = Transport ->
          buscar prov API_KEY url chave_endereco ps (S (S n)) s =
          Ret (frame_of_rows (st_acc s1))
              (mkSt (st_log s1 ++ [(url, dict_set ps "pagetoken" tok)])
                    (st_acc s))).
Proof.
  intros prov key url addr ps fuel s. repeat split.
  - intros s' H. unfold buscar, try_catch in H.
    destruct (paginar prov key url addr fuel ps JNull (mkSt (st_log s) []));
      discriminate H.
  - intros s' H. unfold buscar, try_catch. rewrite H. reflexivity.
  - intros n ps' tok s0 ps'' H. subst ps''. cbn [paginar].
    unfold bind at 1, http_get. cbv beta zeta.
    match goal with |- context [prov ?a ?b] =>
      replace (prov a b) with Transport by (symmetry; exact H) end.
    reflexivity.
  - intros n hits tok s1 Ht H1 H2 H3.
    unfold buscar, try_catch. cbn [paginar truthy negb].
    unfold bind at 1, http_get. cbv beta zeta. simpl st_log. rewrite H1.
    cbn -[mapM_ paginar]. unfold bind at 1. rewrite H2.
    cbn -[paginar]. rewrite Ht. unfold bind at 1. cbv beta.
    match goal with |- context [prov ?a ?b] =>
      replace (prov a b) with Transport by (symmetry; exact H3) end.
    reflexivity.
Qed.

Lemma buscar_contem_falhas_witness :
  buscar (prov_paginas Transport) (JStr "k") BASE_URL "formatted_address"
    ps_exemplo 2 (mkSt [] [])
  = Ret (frame_of_rows [mkRow (JStr "A") NA NA NA])
        (mkSt [(BASE_URL, ps_exemplo);
               (detalhes_url, detalhes_params (JStr "k") (JStr "A"));
               (BASE_URL, dict_set ps_exemplo "pagetoken" (JStr "t"))] []).
Proof.
  apply (proj2 (proj2 (proj2 (buscar_contem_falhas (prov_paginas Transport)
           (JStr "k") BASE_URL "formatted_address" ps_exemplo 2 (mkSt [] []))))
           0 [hit_nomeado "A"] (JStr "t")
           (mkSt [(BASE_URL, ps_exemplo);
                  (detalhes_url, detalhes_params (JStr "k") (JStr "A"))]
                 [mkRow (JStr "A") NA NA NA]));
    vm_compute; reflexivity.
Defined.

(** The text search of [ps_exemplo] when page 2 holds a good hit followed
    by a [null] hit: the [null] hit raises, and the table keeps the rows of
    page 1 and the row of page 2 appended before the failure. *)
Lemma pagina_interrompida_mantem_linhas :
  exists s',
    buscar_textsearch (prov_paginas
                         (Body (pagina_ok [hit_nomeado "B"; JNull] JNull)))
      (JStr "k") 5 "X" None None None None (mkSt [] [])
    = Ret (mkFrame cols_busca [[JStr "A"; NA; NA; NA]; [JStr "B"; NA; NA; NA]])
          s'.
Proof. eexists. vm_compute. reflexivity. Qed.

Lemma linha_campos_do_payload_witness :
  let hit := JObj [("name", JStr "Acme Ltda"); ("place_id", JStr "p1")] in
  let s' := mkSt [(detalhes_url, detalhes_params (JStr "k") (JStr "p1"))]
                 [mkRow (JStr "Acme Ltda") NA NA (JStr "w")] in
  processar_resultado (prov_com_nome "Acme") (JStr "k") "formatted_address"
    hit (mkSt [] []) = Ret tt s'
  /\ exists kv dkv r s1,
      hit = JObj kv
      /\ (obter_detalhes_por_place_id (prov_com_nome "Acme") (JStr "k")
            (dict_get kv "place_id" NA) (mkSt [] []) = Ret (JObj dkv) s1
          \/ exists d, obter_detalhes_por_place_id (prov_com_nome "Acme")
                         (JStr "k") (dict_get kv "place_id" NA) (mkSt [] [])
                       = Ret d s1 /\ truthy d = false /\ dkv = [])
      /\ st_acc s' = st_acc (mkSt [] []) ++ [r]
      /\ valor_ou_sentinela kv "name" (Nome r)
      /\ valor_ou_sentinela kv "formatted_address" (Endereco r)
      /\ valor_ou_sentinela dkv "formatted_phone_number" (Telefone r)
      /\ valor_ou_sentinela dkv "website" (Website r).
Proof.
  intros hit s'.
  assert (H : processar_resultado (prov_com_nome "Acme") (JStr "k")
                "formatted_address" hit (mkSt [] []) = Ret tt s')
    by (vm_compute; reflexivity).
  split; [exact H |].
  exact (linha_campos_do_payload (prov_com_nome "Acme") (JStr "k")
           "formatted_address" hit (mkSt [] []) s' H).
Defined.

(** ** C8: the exported table *)

Lemma frame_of_rows_bem_formada : forall rs, bem_formada (frame_of_rows rs).
Proof.
  intros rs. split.
  - destruct rs; [right | left]; auto.
  - simpl. induction rs; constructor; auto.
Qed.

Lemma buscar_bem_formada : forall prov key url addr ps fuel s t s',
  buscar prov key url addr ps fuel s = Ret t s' -> bem_formada t.
Proof.
  intros prov key url addr ps fuel s t s' H. unfold buscar in H.
  destruct (try_catch _ _ _); inversion H; subst.
  apply frame_of_rows_bem_formada.
Qed.

Lemma sem_duplicadas_Forall : forall (P : list json -> Prop) vistas rs,
  Forall P rs -> Forall P (sem_duplicadas vistas rs).
Proof.
  intros P vistas rs. revert vistas.
  induction rs as [|r rs IH]; intros vistas H; simpl; auto.
  inversion H; subst.
  destruct (existsb _ _); auto.
Qed.

Lemma concat_bem_formada : forall f g,
  bem_formada f -> bem_formada g -> bem_formada (concat f g).
Proof.
  intros f g [Cf Ff] [Cg Fg]. split.
  - unfold concat. simpl.
    destruct Cf as [Cf | [Cf Rf]], Cg as [Cg | [Cg Rg]];
      rewrite Cf, Cg; [left; reflexivity .. |].
    right. simpl. rewrite Rf, Rg. auto.
  - simpl. apply Forall_app. auto.
Qed.

Lemma drop_duplicates_bem_formada : forall f f',
  bem_formada f -> drop_duplicates f = Some f' -> bem_formada f'.
Proof.
  intros f f' [C F] H. unfold drop_duplicates in H.
  destruct (forallb _ _); inversion H; subst. split; simpl.
  - destruct C as [C | [C R]]; [left | right]; auto.
    rewrite R. auto.
  - apply sem_duplicadas_Forall. exact F.
Qed.

Lemma buscar_empresas_bem_formada :
  forall prov key fuel razao loc raio cidade estado s t s',
    buscar_empresas_por_razao_social prov key fuel razao loc raio cidade
      estado s = Ret t s' -> bem_formada t.
Proof.
  intros prov key fuel razao loc raio cidade estado s t s' H.
  unfold buscar_empresas_por_razao_social, bind, buscar_textsearch,
    buscar_nearbysearch in H.
  destruct (buscar prov key BASE_URL _ _ _ s) as [f s1| |] eqn:E1;
    try discriminate.
  destruct (buscar prov key nearby_url _ _ _ s1) as [g s2| |] eqn:E2;
    try discriminate.
  destruct (drop_duplicates (concat f g)) eqn:E3; inversion H; subst.
  eapply drop_duplicates_bem_formada; [| exact E3].
  apply concat_bem_formada; eapply buscar_bem_formada; eassumption.
Qed.

Lemma salvar_resultados_busca : forall f,
  fcols f = cols_busca -> Forall (fun r => length r = 4) (frows f) ->
  salvar_resultados f =
  Some (mkFrame colunas_exportadas (map linha_exportada (frows f))).
Proof.
  intros [cols rs] C F. simpl in C, F. subst cols.
  unfold salvar_resultados, renomear_colunas, atribuir_coluna, selecionar.
  simpl. f_equal. f_equal.
  rewrite map_map. apply map_ext_in. intros r Hr.
  rewrite Forall_forall in F. specialize (F r Hr).
  destruct r as [|a [|b [|c [|d [|e r]]]]]; try discriminate. reflexivity.
Qed.

(** C8. When the run writes a spreadsheet, it is the merged table of the
    two searches exported as five columns in the order REGIAO, NOME DA
    EMPRESA, NOME DO CONTATO, TELEFONE, SITE: address, name, the empty
    string, phone and website of each row, one exported row per row of the
    deduplicated table. *)
Theorem main_exporta_cinco_colunas :
  forall (prov : provider) (API_KEY : json) (py_str : json -> string)
         (fuel : nat) (cidade estado : string) (s s' : st) (out : frame),
    main prov API_KEY py_str fuel cidade estado s = Ret (Some out) s' ->
    exists loc l s1 t,
      obter_coordenadas prov API_KEY py_str cidade estado s = Ret loc s1
      /\ fornecido loc = Some l
      /\ buscar_empresas_por_razao_social prov API_KEY fuel "RAZAO SOCIAL"
           (Some l) (Some 23000%Z) (Some cidade) (Some estado) s1 = Ret t s'
      /\ vazio t = false
      /\ salvar_resultados t = Some out
      /\ fcols out = colunas_exportadas
      /\ frows out = map linha_exportada (frows t)
      /\ length (frows out) = length (frows t)
      /\ Forall (fun r => exists nome endereco telefone website,
                   r = [endereco; nome; JStr ""; telefone; website])
                (frows out).
Proof.
  intros prov key py_str fuel cidade estado s s' out H.
  unfold main, bind in H.
  destruct (obter_coordenadas prov key py_str cidade estado s)
    as [loc s1| |] eqn:E1; try discriminate.
  destruct (fornecido loc) as [l|] eqn:E2; try discriminate.
  destruct (buscar_empresas_por_razao_social prov key fuel _ _ _ _ _ s1)
    as [t s2| |] eqn:E3; try discriminate.
  destruct (vazio t) eqn:E4; try discriminate.
  destruct (salvar_resultados t) as [out'|] eqn:E5; try discriminate.
  unfold ret in H. injection H as <- <-.
  destruct (buscar_empresas_bem_formada _ _ _ _ _ _ _ _ _ _ _ E3) as [C F].
  assert (C' : fcols t = cols_busca).
  { destruct C as [C | [C R]]; auto.
    unfold vazio in E4. rewrite C in E4. discriminate. }
  rewrite salvar_resultados_busca in E5 by assumption.
  injection E5 as <-.
  exists loc, l, s1, t. simpl. repeat split; auto.
  - apply salvar_resultados_busca; assumption.
  - apply length_map.
  - rewrite Forall_forall in F |- *. intros r Hr.
    apply in_map_iff in Hr as (r0 & <- & Hr0). specialize (F r0 Hr0).
    destruct r0 as [|a [|b [|c [|d [|e r0]]]]]; try discriminate.
    exists a, b, c, d. reflexivity.
Qed.

Lemma main_exporta_cinco_colunas_witness :
  exists out s',
    main (prov_com_nome "Acme") (JStr "k") (fun _ => "0") 2
      "Springfield" "IL" (mkSt [] []) = Ret (Some out) s'
    /\ exists loc l s1 t,
      obter_coordenadas (prov_com_nome "Acme") (JStr "k") (fun _ => "0")
        "Springfield" "IL" (mkSt [] []) = Ret loc s1
      /\ fornecido loc = Some l
      /\ buscar_empresas_por_razao_social (prov_com_nome "Acme") (JStr "k") 2
           "RAZAO SOCIAL" (Some l) (Some 23000%Z) (Some "Springfield")
           (Some "IL") s1 = Ret t s'
      /\ vazio t = false
      /\ salvar_resultados t = Some out
      /\ fcols out = colunas_exportadas
      /\ frows out = map linha_exportada (frows t)
      /\ length (frows out) = length (frows t)
      /\ Forall (fun r => exists nome endereco telefone website,
                   r = [endereco; nome; JStr ""; telefone; website])
                (frows out).
Proof.
  destruct (main (prov_com_nome "Acme") (JStr "k") (fun _ => "0") 2
              "Springfield" "IL" (mkSt [] [])) as [[out|] s'| |] eqn:E;
    try (vm_compute in E; discriminate E).
  exists out, s'. split; [reflexivity |].
  exact (main_exporta_cinco_colunas (prov_com_nome "Acme") (JStr "k")
           (fun _ => "0") 2 "Springfield" "IL" (mkSt [] []) s' out E).
Defined.

(** ** C1: the merge of the two searches *)

Lemma py_eq_simples : forall a b,
  celula_simples a = true -> celula_simples b = true ->
  py_eq a b = true <-> a = b.
Proof.
  intros a b Ha Hb.
  destruct a, b; simpl in *; try discriminate;
    try rewrite String.eqb_eq; try rewrite Z.eqb_eq;
    split; intro H; try discriminate; congruence.
Qed.

Lemma linha_eq_simples : forall r1 r2,
  forallb celula_simples r1 = true -> forallb celula_simples r2 = true ->
  linha_eq r1 r2 = true <-> r1 = r2.
Proof.
  induction r1 as [|a r1 IH]; intros [|b r2] H1 H2; simpl in *;
    try (split; intro; congruence).
  apply andb_true_iff in H1 as [Ha H1]. apply andb_true_iff in H2 as [Hb H2].
  rewrite andb_true_iff, py_eq_simples, IH by assumption.
  split; [intros [-> ->]; reflexivity | intro E; injection E; auto].
Qed.

Lemma existsb_linha_eq : forall r v,
  Forall (fun r => forallb celula_simples r = true) (r :: v) ->
  existsb (linha_eq r) v = true <-> In r v.
Proof.
  intros r v F. inversion F as [|? ? Hr Fv]; subst.
  rewrite existsb_exists. split.
  - intros (y & Hy & E). rewrite Forall_forall in Fv.
    apply linha_eq_simples in E; auto. subst. exact Hy.
  - intros Hr'. exists r. split; auto.
    apply linha_eq_simples; auto.
Qed.

Lemma sem_duplicadas_simples : forall l v,
  Forall (fun r => forallb celula_simples r = true) (v ++ l) ->
  sem_duplicadas v l = sem_repetidas v l.
Proof.
  induction l as [|x l IH]; intros v F; simpl; auto.
  apply Forall_app in F as [Fv Fl]. inversion Fl as [|? ? Hx Fl']; subst.
  assert (E : existsb (linha_eq x) v = true <-> In x v)
    by (apply existsb_linha_eq; constructor; auto).
  assert (F' : Forall (fun r => forallb celula_simples r = true)
                 ((x :: v) ++ l))
    by (simpl; constructor; auto; apply Forall_app; auto).
  destruct (existsb (linha_eq x) v) eqn:B;
    destruct (in_dec linha_eq_dec x v) as [I | I];
    try (rewrite IH by exact F'; reflexivity);
    first [ exfalso; apply I, E; reflexivity
          | apply E in I; discriminate I ].
Qed.

Lemma sem_repetidas_snoc : forall l v x,
  sem_repetidas v (l ++ [x]) =
  sem_repetidas v l ++
    (if in_dec linha_eq_dec x (rev l ++ v) then [] else [x]).
Proof.
  induction l as [|a l IH]; intros v x; simpl.
  - destruct (in_dec linha_eq_dec x v); reflexivity.
  - rewrite IH, <- app_assoc. simpl.
    destruct (in_dec linha_eq_dec a v); reflexivity.
Qed.

Lemma primeiras_ocorrencias_sem_repetidas : forall l,
  primeiras_ocorrencias l = sem_repetidas [] l.
Proof.
  induction l as [|x l IH] using rev_ind; [reflexivity |].
  unfold primeiras_ocorrencias in *.
  rewrite rev_unit, sem_repetidas_snoc, app_nil_r, <- IH. simpl.
  destruct (in_dec linha_eq_dec x (rev l)); simpl; rewrite ?app_nil_r; reflexivity.
Qed.

Lemma primeiras_ocorrencias_NoDup : forall l, NoDup (primeiras_ocorrencias l).
Proof.
  intros l. apply NoDup_rev, NoDup_nodup.
Qed.

Lemma primeiras_ocorrencias_In : forall l r,
  In r (primeiras_ocorrencias l) <-> In r l.
Proof.
  intros l r. unfold primeiras_ocorrencias.
  rewrite <- in_rev, nodup_In, <- in_rev. reflexivity.
Qed.

(** C1 (as amended). The aggregator runs the text search, then the nearby
    search from the state the first left, and merges their tables, text
    search first. When every cell of either table is a null, a string or an
    integer of absolute value at most [2^53] (no boolean, list or object,
    and no integer that pandas' float64 columns would round), the merged
    rows are the rows of the two tables in first-seen
    order, each distinct row once, and the run succeeds; when some cell is
    a list or an object, the deduplication raises and so does the
    aggregator. *)
Theorem buscar_empresas_deduplica :
  forall (prov : provider) (API_KEY : json) (fuel : nat)
         (razao_social : string) (localizacao : option string)
         (raio : option Z) (cidade estado : option string)
         (s s1 s2 : st) (t n : frame),
    buscar_textsearch prov API_KEY fuel razao_social localizacao raio cidade
      estado s = Ret t s1 ->
    buscar_nearbysearch prov API_KEY fuel razao_social localizacao raio s1
      = Ret n s2 ->
    (Forall (fun r => forallb celula_exata r = true) (frows t ++ frows n) ->
     exists f,
       buscar_empresas_por_razao_social prov API_KEY fuel razao_social
         localizacao raio cidade estado s = Ret f s2
       /\ frows f = primeiras_ocorrencias (frows t ++ frows n)
       /\ NoDup (frows f)
       /\ (forall r, In r (frows f) <-> In r (frows t ++ frows n))
       /\ bem_formada f)
    /\ ((exists r j, In r (frows t ++ frows n) /\ In j r /\ hashable j = false)
        -> buscar_empresas_por_razao_social prov API_KEY fuel razao_social
             localizacao raio cidade estado s = Exc s2).
Proof.
  intros prov key fuel razao loc raio cidade estado s s1 s2 t n E1 E2.
  assert (Eagg : buscar_empresas_por_razao_social prov key fuel razao loc raio
                   cidade estado s
                 = match drop_duplicates (concat t n) with
                   | Some f => Ret f s2
                   | None => Exc s2
                   end).
  { unfold buscar_empresas_por_razao_social, bind. rewrite E1, E2.
    destruct (drop_duplicates (concat t n)); reflexivity. }
  split.
  - intros F'.
    assert (F : Forall (fun r => forallb celula_simples r = true)
                  (frows t ++ frows n)).
    { eapply Forall_impl; [|exact F']. intros r Hr.
      rewrite forallb_forall in Hr |- *. intros j Hj. specialize (Hr j Hj).
      destruct j; try discriminate; reflexivity. }
    assert (H : forallb (forallb hashable) (frows (concat t n)) = true).
    { simpl. apply forallb_forall. intros r Hr.
      rewrite Forall_forall in F. specialize (F r Hr).
      rewrite forallb_forall in F |- *. intros j Hj. specialize (F j Hj).
      destruct j; try discriminate; reflexivity. }
    unfold drop_duplicates in Eagg. rewrite H in Eagg. cbv beta iota in Eagg.
    pose proof (buscar_empresas_bem_formada _ _ _ _ _ _ _ _ _ _ _ Eagg) as B.
    assert (R : sem_duplicadas [] (frows (concat t n))
                = primeiras_ocorrencias (frows t ++ frows n)).
    { simpl. rewrite sem_duplicadas_simples by exact F.
      symmetry. apply primeiras_ocorrencias_sem_repetidas. }
    eexists. split; [exact Eagg |]. cbn [frows]. rewrite R.
    split; [reflexivity | split; [| split; [| rewrite R in B; exact B]]].
    + apply primeiras_ocorrencias_NoDup.
    + apply primeiras_ocorrencias_In.
  - intros (r & j & Hr & Hj & Hh).
    assert (H : forallb (forallb hashable) (frows (concat t n)) = false).
    { apply not_true_iff_false. intros H. rewrite forallb_forall in H.
      specialize (H r Hr). rewrite forallb_forall in H.
      rewrite (H j Hj) in Hh. discriminate. }
    unfold drop_duplicates in Eagg. rewrite H in Eagg. exact Eagg.
Qed.

Lemma buscar_empresas_deduplica_witness :
  exists f s',
    buscar_empresas_por_razao_social
      (prov_agregador (JStr "Acme") (JStr "Acme") (JStr "w")) (JStr "k") 2
      "Acme" (Some "1,2") (Some 100%Z) None None (mkSt [] [])
    = Ret f s'
    /\ frows f = [[JStr "Acme"; NA; NA; JStr "w"];
                  [JStr "Outra"; NA; NA; JStr "w"]].
Proof.
  destruct (buscar_textsearch
              (prov_agregador (JStr "Acme") (JStr "Acme") (JStr "w")) (JStr "k")
              2 "Acme" (Some "1,2") (Some 100%Z) None None (mkSt [] []))
    as [t s1| |] eqn:E1;
    [| vm_compute in E1; discriminate E1 ..].
  pose proof E1 as T1. vm_compute in T1. injection T1 as <- <-.
  match type of E1 with _ = Ret _ ?s1 =>
    destruct (buscar_nearbysearch
                (prov_agregador (JStr "Acme") (JStr "Acme") (JStr "w"))
                (JStr "k") 2 "Acme" (Some "1,2") (Some 100%Z) s1)
      as [n s2| |] eqn:E2;
      [| vm_compute in E2; discriminate E2 ..]
  end.
  pose proof E2 as T2. vm_compute in T2. injection T2 as <- <-.
  destruct (proj1 (buscar_empresas_deduplica _ _ _ _ _ _ _ _ _ _ _ _ _ E1 E2))
    as (f & Ef & Rf & _).
  - repeat constructor.
  - exists f. eexists. split; [exact Ef |]. rewrite Rf. vm_compute. reflexivity.
Defined.

(** C1 fails as stated on two inputs: a website given as a JSON object
    makes the deduplication raise, and a row named [true] by the text
    search swallows the distinct row named [1] by the nearby search. *)
Lemma agregador_diverge :
  (exists s',
     buscar_empresas_por_razao_social
       (prov_agregador (JStr "Acme") (JStr "Acme") (JObj [])) (JStr "k") 2
       "Acme" (Some "1,2") (Some 100%Z) None None (mkSt [] []) = Exc s')
  /\ (exists s',
     buscar_empresas_por_razao_social
       (prov_agregador (JBool true) (JNum 1) (JStr "w")) (JStr "k") 2
       "Acme" (Some "1,2") (Some 100%Z) None None (mkSt [] [])
     = Ret (mkFrame cols_busca [[JBool true; NA; NA; JStr "w"];
                                [JStr "Outra"; NA; NA; JStr "w"]]) s').
Proof. split; eexists; vm_compute; reflexivity. Qed.

(** ** C3: the pages of a search *)

Lemma obter_detalhes_bom : forall prov key pid s,
  (forall ps, detalhe_bom (prov (st_log s) (detalhes_url, ps))) ->
  exists d,
    obter_detalhes_por_place_id prov key pid s
    = Ret d (mkSt (st_log s ++ [(detalhes_url, detalhes_params key pid)])
                  (st_acc s))
    /\ ((exists rkv, d = JObj rkv) \/ truthy d = false).
Proof.
  intros prov key pid s Hd.
  specialize (Hd (detalhes_params key pid)).
  unfold obter_detalhes_por_place_id, try_catch, bind, http_get.
  cbv beta zeta.
  destruct (prov (st_log s) (detalhes_url, detalhes_params key pid))
    as [|j] eqn:E; [eexists; split; [reflexivity | left; eexists; reflexivity] |].
  destruct j as [| | | | |kv]; simpl;
    try (eexists; split; [reflexivity | left; eexists; reflexivity]).
  simpl in Hd.
  destruct (assoc "status" kv) as [st|] eqn:Es; simpl;
    [| eexists; split; [reflexivity | left; eexists; reflexivity]].
  destruct (is_ok st) eqn:Eo; simpl;
    [| eexists; split; [reflexivity | left; eexists; reflexivity]].
  destruct (assoc "result" kv) as [v|] eqn:Er; simpl;
    [| eexists; split; [reflexivity | left; eexists; reflexivity]].
  exists v. split; [reflexivity |]. exact (Hd st v eq_refl Eo eq_refl).
Qed.

Lemma processar_bem_formado : forall prov key addr hit s,
  hit_bem_formado hit ->
  (forall ps, detalhe_bom (prov (st_log s) (detalhes_url, ps))) ->
  exists r acc',
    processar_resultado prov key addr hit s = Ret tt (mkSt (st_log s ++ [r]) acc')
    /\ fst r = detalhes_url.
Proof.
  intros prov key addr hit s Hh Hd.
  destruct hit as [| | | | |kv]; try contradiction. simpl in Hh.
  destruct (dict_get kv "geometry" (JObj [])) as [| | | | |gkv] eqn:Eg;
    try contradiction.
  destruct (dict_get gkv "location" (JObj [])) as [| | | | |lkv] eqn:El;
    try contradiction.
  destruct (obter_detalhes_bom prov key (dict_get kv "place_id" NA) s Hd)
    as (d & Ed & Hd').
  unfold processar_resultado.
  unfold bind at 1, py_get at 1, ret at 1.
  unfold bind at 1, py_get at 1, ret at 1.
  unfold bind at 1, py_get at 1, ret at 1.
  unfold bind at 1, py_get at 1, ret at 1. rewrite Eg.
  unfold bind at 1, py_get at 1, ret at 1. rewrite El.
  unfold bind at 1, py_get at 1, ret at 1.
  unfold bind at 1, py_get at 1, ret at 1. rewrite Eg.
  unfold bind at 1, py_get at 1, ret at 1. rewrite El.
  unfold bind at 1, py_get at 1, ret at 1.
  unfold bind at 1. rewrite Ed.
  unfold bind at 1.
  destruct Hd' as [(rkv & ->) | Hf];
    [rewrite campos_detalhes_obj | rewrite campos_detalhes_falso by exact Hf];
    do 2 eexists; split; reflexivity.
Qed.

Section Paginas.

Variable prov : provider.
Variable API_KEY : json.
Variable url chave_endereco : string.

Hypothesis url_nao_detalhes : url <> detalhes_url.
Hypothesis detalhes_bons : forall h ps, detalhe_bom (prov h (detalhes_url, ps)).

Lemma mapM_processar_bem_formados : forall hits s,
  Forall hit_bem_formado hits ->
  exists d acc',
    mapM_ (processar_resultado prov API_KEY chave_endereco) hits s
    = Ret tt (mkSt (st_log s ++ d) acc')
    /\ pedidos_de url d = [].
Proof.
  induction hits as [|x hits IH]; intros s F.
  - exists [], (st_acc s). rewrite app_nil_r. destruct s. split; reflexivity.
  - inversion F as [|? ? Hx Fr]; subst.
    destruct (processar_bem_formado prov API_KEY chave_endereco x s Hx
                (detalhes_bons (st_log s))) as (r & acc1 & Ex & Er).
    destruct (IH (mkSt (st_log s ++ [r]) acc1) Fr) as (d & acc2 & Ed & Pd).
    exists (r :: d), acc2. simpl. unfold bind. rewrite Ex, Ed. simpl.
    rewrite <- app_assoc. split; [reflexivity |].
    unfold pedidos_de in *. simpl. rewrite Er.
    destruct (String.eqb detalhes_url url) eqn:E; [| exact Pd].
    apply String.eqb_eq in E. congruence.
Qed.

Lemma paginar_passo : forall fuel ps tok s hits tok' s1,
  prov (st_log s) (url, params_pagina ps tok) = Body (pagina_ok hits tok') ->
  mapM_ (processar_resultado prov API_KEY chave_endereco) hits
    (mkSt (st_log s ++ [(url, params_pagina ps tok)]) (st_acc s)) = Ret tt s1 ->
  paginar prov API_KEY url chave_endereco (S fuel) ps tok s
  = if truthy tok'
    then paginar prov API_KEY url chave_endereco fuel (params_pagina ps tok)
           tok' s1
    else Ret tt s1.
Proof.
  intros fuel ps tok s hits tok' s1 Hp Hm.
  cbn [paginar]. unfold bind at 1, http_get. cbv beta zeta.
  match goal with |- context [prov ?a ?b] =>
    replace (prov a b) with (Body (pagina_ok hits tok'))
      by (symmetry; exact Hp) end.
  unfold pagina_ok. cbn -[mapM_ paginar].
  unfold bind at 1.
  match goal with |- context [mapM_ ?f ?l ?st] =>
    replace (mapM_ f l st) with (Ret tt s1) by (symmetry; exact Hm) end.
  cbn -[paginar]. destruct (truthy tok'); reflexivity.
Qed.

Variable L0 : list request.
Variable paginas : list (list json * json).

Hypothesis respostas_paginas : forall h ps,
  prov (L0 ++ h) (url, ps)
  = resposta_pagina (nth_error paginas (length (pedidos_de url h))).
Hypothesis hits_bem_formados :
  Forall (fun p => Forall hit_bem_formado (fst p)) paginas.
Hypothesis encadeados : tokens_encadeados paginas.

Lemma pedidos_de_app : forall h1 h2,
  pedidos_de url (h1 ++ h2) = pedidos_de url h1 ++ pedidos_de url h2.
Proof. intros. apply filter_app. Qed.

Lemma paginar_restantes : forall fuel r j ps tok h acc,
  length paginas = j + r -> 1 <= r -> r <= fuel ->
  length (pedidos_de url h) = j ->
  exists h' acc',
    paginar prov API_KEY url chave_endereco fuel ps tok (mkSt (L0 ++ h) acc)
    = Ret tt (mkSt (L0 ++ h ++ h') acc')
    /\ length (pedidos_de url h') = r
    /\ map (fun q => assoc "pagetoken" (snd q)) (pedidos_de url h')
       = assoc "pagetoken" (params_pagina ps tok)
         :: map (fun p => Some (snd p)) (firstn (r - 1) (skipn j paginas)).
Proof.
  induction fuel as [|fuel IH]; intros r j ps tok h acc Hl Hr Hf Hj;
    [lia |].
  destruct encadeados as [_ Htok].
  destruct (nth_error paginas j) as [[hits tok']|] eqn:En;
    [| apply nth_error_None in En; lia].
  assert (Hh : Forall hit_bem_formado hits).
  { rewrite Forall_forall in hits_bem_formados.
    apply (hits_bem_formados (hits, tok')). eapply nth_error_In. exact En. }
  destruct (mapM_processar_bem_formados hits
              (mkSt (st_log (mkSt (L0 ++ h) acc)
                     ++ [(url, params_pagina ps tok)]) acc) Hh)
    as (d & acc1 & Em & Pd).
  assert (Hp : prov (st_log (mkSt (L0 ++ h) acc)) (url, params_pagina ps tok)
               = Body (pagina_ok hits tok')).
  { simpl. rewrite respostas_paginas, Hj, En. reflexivity. }
  rewrite (paginar_passo fuel ps tok _ hits tok' _ Hp Em).
  assert (Hsk : skipn j paginas = (hits, tok') :: skipn (S j) paginas).
  { clear - En. revert paginas En.
    induction j as [|j IHj]; intros [|p ps] E; simpl in *; try discriminate.
    - injection E as ->. reflexivity.
    - apply IHj. exact E. }
  assert (Hu : String.eqb url url = true) by apply String.eqb_refl.
  destruct (truthy tok') eqn:Et.
  - apply (Htok j (hits, tok')) in Et; [| exact En]. simpl in Et.
    destruct (IH (r - 1) (S j) (params_pagina ps tok) tok'
                (h ++ (url, params_pagina ps tok) :: d) acc1)
      as (h'' & acc2 & E'' & L'' & T'').
    + lia.
    + lia.
    + lia.
    + rewrite pedidos_de_app. simpl. unfold pedidos_de at 2. simpl.
      rewrite Hu. fold (pedidos_de url d). rewrite Pd, length_app, Hj.
      simpl. lia.
    + exists ((url, params_pagina ps tok) :: d ++ h''), acc2.
      split; [| split].
      * simpl in E''. simpl. rewrite <- !app_assoc in *. simpl in *.
        exact E''.
      * unfold pedidos_de. simpl. rewrite Hu. simpl.
        fold (pedidos_de url (d ++ h'')). rewrite pedidos_de_app, Pd.
        simpl. lia.
      * unfold pedidos_de. simpl. rewrite Hu. simpl.
        fold (pedidos_de url (d ++ h'')). rewrite pedidos_de_app, Pd.
        simpl. rewrite T''. f_equal. rewrite Hsk.
        replace (r - 1) with (S (r - 1 - 1)) by lia. cbn [firstn map].
        f_equal. unfold params_pagina at 1.
        assert (Et' : truthy tok' = true) by (apply (Htok j (hits, tok')); auto).
        rewrite Et'. rewrite assoc_dict_set_eq. reflexivity.
        replace (S (r - 1 - 1) - 1) with (r - 1 - 1) by lia. reflexivity.
  - assert (r = 1).
    { destruct (Nat.eq_dec r 1) as [|Hne]; [assumption |].
      exfalso. assert (S j < length paginas) by lia.
      apply (Htok j (hits, tok')) in H; [| exact En]. simpl in H. congruence. }
    subst r.
    exists ((url, params_pagina ps tok) :: d), acc1. split; [| split].
    + simpl. rewrite <- !app_assoc. reflexivity.
    + unfold pedidos_de. simpl. rewrite Hu. simpl.
      fold (pedidos_de url d). rewrite Pd. reflexivity.
    + unfold pedidos_de. simpl. rewrite Hu. simpl.
      fold (pedidos_de url d). rewrite Pd. reflexivity.
Qed.

End Paginas.

(** C3 (as amended). Let the provider answer the [k]-th page request of a
    run (counting from 0) with page [k] of [paginas], where every page but
    the last carries a truthy token and the last a falsy one. If every hit
    is an object whose ['geometry'] and ['location'], when present, are
    objects, if every OK detail result is an object or falsy, and if the
    loop may run [length paginas] times, then the run ends normally after
    exactly [length paginas] page requests; the first carries the
    ['pagetoken'] the initial params had (none for a search), and request
    [i+1] carries the token of page [i]. *)
Theorem paginar_n_paginas :
  forall (prov : provider) (API_KEY : json) (url chave_endereco : string)
         (L0 : list request) (paginas : list (list json * json))
         (fuel : nat) (ps : params) (acc : list row),
    url <> detalhes_url ->
    (forall h ps', detalhe_bom (prov h (detalhes_url, ps'))) ->
    (forall h ps', prov (L0 ++ h) (url, ps')
                   = resposta_pagina (nth_error paginas
                                        (length (pedidos_de url h)))) ->
    Forall (fun p => Forall hit_bem_formado (fst p)) paginas ->
    tokens_encadeados paginas ->
    length paginas <= fuel ->
    exists h acc',
      paginar prov API_KEY url chave_endereco fuel ps JNull (mkSt L0 acc)
      = Ret tt (mkSt (L0 ++ h) acc')
      /\ length (pedidos_de url h) = length paginas
      /\ map (fun q => assoc "pagetoken" (snd q)) (pedidos_de url h)
         = assoc "pagetoken" ps
           :: map (fun p => Some (snd p)) (removelast paginas).
Proof.
  intros prov key url addr L0 paginas fuel ps acc Hu Hd Hp Hh He Hf.
  assert (Hn : 1 <= length paginas).
  { destruct He as [Hne _]. destruct paginas; [congruence | simpl; lia]. }
  destruct (paginar_restantes prov key url addr Hu Hd L0 paginas Hp Hh He
              fuel (length paginas) 0 ps JNull [] acc)
    as (h & acc' & E & L & T); try reflexivity; try lia.
  exists h, acc'. rewrite app_nil_r in E. split; [exact E | split; [exact L |]].
  rewrite T, removelast_firstn_len. simpl. rewrite Nat.sub_1_r. reflexivity.
Qed.

Lemma paginar_n_paginas_witness :
  exists h acc',
    paginar (prov_por_contagem BASE_URL paginas_exemplo detalhe_exemplo)
      (JStr "k") BASE_URL "formatted_address" 2 ps_exemplo JNull (mkSt [] [])
    = Ret tt (mkSt ([] ++ h) acc')
    /\ length (pedidos_de BASE_URL h) = length paginas_exemplo
    /\ map (fun q => assoc "pagetoken" (snd q)) (pedidos_de BASE_URL h)
       = assoc "pagetoken" ps_exemplo
         :: map (fun p => Some (snd p)) (removelast paginas_exemplo).
Proof.
  apply (paginar_n_paginas
           (prov_por_contagem BASE_URL paginas_exemplo detalhe_exemplo)
           (JStr "k") BASE_URL "formatted_address" [] paginas_exemplo 2
           ps_exemplo []).
  - discriminate.
  - intros h ps' st v E1 E2 E3. left. injection E3 as <-. eexists. reflexivity.
  - intros h ps'. reflexivity.
  - repeat constructor.
  - split; [discriminate |].
    intros [|[|i]] p E; simpl in E.
    + injection E as <-. simpl. split; intro; [lia | reflexivity].
    + injection E as <-. simpl. split; intro; [discriminate | lia].
    + destruct i; discriminate.
  - simpl. lia.
Defined.

(** C3 fails as stated: page 1 is OK and carries a token, but its hit has
    ['geometry'] set to [null]; the loop raises on it, page 2 is never
    requested, and the table is empty. *)
Lemma geometria_nula_interrompe :
  exists f s',
    buscar_textsearch
      (prov_por_contagem BASE_URL
         [([JObj [("name", JStr "A"); ("geometry", JNull)]], JStr "t");
          ([hit_nomeado "B"], JNull)]
         detalhe_exemplo)
      (JStr "k") 5 "X" None None None None (mkSt [] [])
    = Ret f s'
    /\ length (pedidos_de BASE_URL (st_log s')) = 1
    /\ frows f = [].
Proof. do 2 eexists. split; [vm_compute; reflexivity | split; vm_compute; reflexivity]. Qed.

(** ** [converter_horarios] *)

Lemma distintos_snoc : forall l a,
  distintos (l ++ [a]) =
  if in_dec string_dec a l then distintos l else distintos l ++ [a].
Proof.
  intros l a. unfold distintos. rewrite rev_app_distr. simpl.
  destruct (in_dec string_dec a (rev l)) as [H|H];
    destruct (in_dec string_dec a l) as [H'|H']; try reflexivity.
  - exfalso. apply H'. apply in_rev. exact H.
  - exfalso. apply H. apply in_rev in H'. exact H'.
Qed.

Lemma In_distintos : forall l a, In a (distintos l) <-> In a l.
Proof.
  intros l a. unfold distintos. rewrite <- in_rev, nodup_In, <- in_rev.
  reflexivity.
Qed.

Lemma existsb_map' : forall A B (f : B -> bool) (g : A -> B) l,
  existsb f (map g l) = existsb (fun x => f (g x)) l.
Proof.
  intros A B f g l. induction l as [|x l IH]; simpl; [reflexivity|].
  rewrite IH. reflexivity.
Qed.

Lemma grupos_snoc : forall l a,
  map (fun p => if String.eqb (fst p) a then (fst p, snd p ++ [a]) else p)
    (if existsb (fun p => String.eqb (fst p) a) (grupos l)
     then grupos l else grupos l ++ [(a, [])])
  = grupos (l ++ [a]).
Proof.
  intros l a.
  assert (Hm : map (fun p => if String.eqb (fst p) a
                            then (fst p, snd p ++ [a]) else p) (grupos l)
               = map (fun x => (x, repeat x (count_occ string_dec (l ++ [a]) x)))
                   (distintos l)).
  { unfold grupos. rewrite map_map. apply map_ext. intros x. simpl.
    rewrite count_occ_app. simpl.
    destruct (String.eqb x a) eqn:E.
    - apply String.eqb_eq in E. subst x.
      destruct (string_dec a a) as [_|n]; [|contradiction].
      rewrite repeat_app. reflexivity.
    - apply String.eqb_neq in E.
      destruct (string_dec a x) as [e|_]; [congruence|].
      rewrite Nat.add_0_r. reflexivity. }
  change (grupos (l ++ [a])) with
    (map (fun x => (x, repeat x (count_occ string_dec (l ++ [a]) x)))
       (distintos (l ++ [a]))).
  rewrite distintos_snoc.
  assert (Hx : existsb (fun p => String.eqb (fst p) a) (grupos l)
               = if in_dec string_dec a l then true else false).
  { unfold grupos. rewrite existsb_map'. simpl.
    destruct (in_dec string_dec a l) as [i|n].
    - apply existsb_exists. exists a. split.
      + apply In_distintos. exact i.
      + apply String.eqb_refl.
    - apply Bool.not_true_is_false. intros Hc.
      apply existsb_exists in Hc. destruct Hc as [x [Hx Hxa]].
      apply String.eqb_eq in Hxa. subst x. apply n, In_distintos, Hx. }
  rewrite Hx. destruct (in_dec string_dec a l) as [i|n].
  - exact Hm.
  - rewrite map_app, Hm, map_app. simpl. rewrite String.eqb_refl.
    rewrite count_occ_app.
    assert (Z0 : count_occ string_dec l a = 0)
      by (apply count_occ_not_In; exact n).
    rewrite Z0. simpl. destruct (string_dec a a) as [_|c]; [reflexivity|contradiction].
Qed.

Lemma agrupar_cons : forall dc h r,
  agrupar dc (h :: r) =
  match abreviatura h with
  | Some a =>
      agrupar (map (fun p => if String.eqb (fst p) a
                             then (fst p, snd p ++ [a]) else p)
                 (if existsb (fun p => String.eqb (fst p) a) dc
                  then dc else dc ++ [(a, [])])) r
  | None => None
  end.
Proof. reflexivity. Qed.

Lemma agrupar_grupos : forall hs abrevs pre,
  map abreviatura hs = map Some abrevs ->
  agrupar (grupos pre) hs = Some (grupos (pre ++ abrevs)).
Proof.
  induction hs as [|h hs IH]; intros [|a abrevs] pre H; try discriminate.
  - rewrite app_nil_r. reflexivity.
  - simpl in H. injection H as Ha Hr.
    rewrite agrupar_cons, Ha, grupos_snoc, (IH abrevs (pre ++ [a]) Hr).
    rewrite <- app_assoc. reflexivity.
Qed.

Lemma agrupar_falha : forall hs dc,
  Exists (fun h => abreviatura h = None) hs -> agrupar dc hs = None.
Proof.
  induction hs as [|h hs IH]; intros dc H.
  - inversion H.
  - rewrite agrupar_cons. inversion H as [? ? Hh|? ? Hr]; subst.
    + rewrite Hh. reflexivity.
    + destruct (abreviatura h); [apply IH, Hr | reflexivity].
Qed.

Lemma existsb_repeat : forall f (a : string) k,
  existsb f (repeat a (S k)) = f a.
Proof.
  intros f a k. induction k as [|k IH]; simpl in *.
  - apply Bool.orb_false_r.
  - rewrite IH. destruct (f a); reflexivity.
Qed.

Lemma last_repeat : forall (a d : string) k, last (repeat a (S k)) d = a.
Proof.
  intros a d k. induction k as [|k IH]; [reflexivity|].
  exact IH.
Qed.

Lemma formatar_dias_repeat : forall a k,
  1 <= k -> formatar_dias (repeat a k) = Some (rotulo a k).
Proof.
  intros a [|k] Hk; [lia|].
  unfold formatar_dias. rewrite repeat_length, !existsb_repeat, last_repeat.
  unfold rotulo. cbn [repeat].
  destruct (Nat.eqb (S k) 7); [reflexivity|].
  destruct (Nat.eqb (S k) 6 && negb (String.eqb "DOM" a)); [reflexivity|].
  destruct (Nat.eqb (S k) 5 && negb (String.eqb "SAB" a)
            && negb (String.eqb "DOM" a)); [reflexivity|].
  destruct (Nat.ltb 1 (S k)); reflexivity.
Qed.

Lemma formatar_todos_grupos : forall abrevs l,
  (forall a, In a l -> In a abrevs) ->
  formatar_todos
    (map (fun a => repeat a (count_occ string_dec abrevs a)) l)
  = Some (map (fun a => rotulo a (count_occ string_dec abrevs a)) l).
Proof.
  intros abrevs l. induction l as [|a l IH]; intros H; [reflexivity|].
  simpl. rewrite formatar_dias_repeat.
  - rewrite IH; [reflexivity|]. intros x Hx. apply H. right. exact Hx.
  - apply count_occ_In, H. left. reflexivity.
Qed.

Lemma converter_horarios_grupos : forall hs abrevs,
  map abreviatura hs = map Some abrevs ->
  converter_horarios hs =
  Some (String.concat ", "
          (map (fun a => rotulo a (count_occ string_dec abrevs a))
               (distintos abrevs))).
Proof.
  intros hs abrevs H. unfold converter_horarios.
  change (agrupar [] hs) with (agrupar (grupos []) hs).
  rewrite (agrupar_grupos hs abrevs [] H). simpl app.
  unfold grupos. rewrite map_map. simpl.
  rewrite formatar_todos_grupos; [reflexivity|].
  intros a Ha. apply In_distintos, Ha.
Qed.

Lemma abreviaturas_ou_falha : forall hs,
  (exists abrevs, map abreviatura hs = map Some abrevs)
  \/ Exists (fun h => abreviatura h = None) hs.
Proof.
  induction hs as [|h hs IH].
  - left. exists []. reflexivity.
  - destruct (abreviatura h) as [a|] eqn:E.
    + destruct IH as [[abrevs Ha]|Hn].
      * left. exists (a :: abrevs). simpl. rewrite E, Ha. reflexivity.
      * right. right. exact Hn.
    + right. left. exact E.
Qed.

(** [converter_horarios] raises exactly when one of its entries has no
    [": "] or starts with something other than an English day name. *)
Theorem converter_horarios_falha :
  forall horarios,
  converter_horarios horarios = None <->
  Exists (fun h => abreviatura h = None) horarios.
Proof.
  intros hs. split.
  - intros Hn. destruct (abreviaturas_ou_falha hs) as [[abrevs Ha]|He].
    + rewrite (converter_horarios_grupos hs abrevs Ha) in Hn. discriminate.
    + exact He.
  - intros He. unfold converter_horarios. rewrite agrupar_falha by exact He.
    reflexivity.
Qed.

(** When every entry names a day, the result joins, in first-seen
    order, one label per distinct abbreviation, computed from that
    abbreviation and its number of occurrences only: 7 copies give
    SEG-DOM, 6 give SEG-SAB unless the day is DOM, 5 give SEG-SEX unless it
    is SAB or DOM, other counts above 1 give [a-a], one copy gives [a]. *)
Theorem converter_horarios_rotulos : forall horarios abrevs,
  map abreviatura horarios = map Some abrevs ->
  converter_horarios horarios =
  Some (String.concat ", "
          (map (fun a => rotulo a (count_occ string_dec abrevs a))
               (distintos abrevs))).
Proof. intros hs abrevs H. apply converter_horarios_grupos, H. Qed.

Lemma converter_horarios_rotulos_witness :
  map abreviatura ["Monday: 8-12"; "Monday: 14-18"; "Tuesday: 8-18"]
  = map Some ["SEG"; "SEG"; "TER"]
  /\ converter_horarios ["Monday: 8-12"; "Monday: 14-18"; "Tuesday: 8-18"]
     = Some "SEG-SEG, TER".
Proof.
  split; [vm_compute; reflexivity|].
  rewrite (converter_horarios_rotulos _ ["SEG"; "SEG"; "TER"])
    by (vm_compute; reflexivity).
  vm_compute. reflexivity.
Defined.

Lemma split_dois_pontos_String : forall c r,
  split_dois_pontos (String c r) =
  if String.prefix ": " (String c r)
  then [EmptyString; match r with String _ r' => r' | EmptyString => r end]
  else match split_dois_pontos r with
       | [a; b] => [String c a; b]
       | _ => [String c r]
       end.
Proof. reflexivity. Qed.

Lemma split_dois_pontos_app : forall s x y,
  split_dois_pontos s = [x; y] -> s = (x ++ ": " ++ y)%string.
Proof.
  induction s as [|c r IH]; intros x y H; [discriminate|].
  rewrite split_dois_pontos_String in H.
  destruct (String.prefix ": " (String c r)) eqn:P.
  - change ((if ascii_dec ":" c then String.prefix " " r else false)
            = true) in P.
    destruct (ascii_dec ":" c) as [e|]; [|discriminate].
    subst c. destruct r as [|c' r']; [discriminate|].
    change ((if ascii_dec " " c' then String.prefix "" r' else false)
            = true) in P.
    destruct (ascii_dec " " c') as [e|]; [|discriminate].
    subst c'. injection H as <- <-. reflexivity.
  - destruct (split_dois_pontos r) as [|a [|b [|? ?]]] eqn:E;
      try discriminate.
    injection H as <- <-. rewrite (IH a b eq_refl). reflexivity.
Qed.

Lemma indice_nth : forall c l i,
  indice c l = Some i -> i < List.length l /\ nth i l "" = c.
Proof.
  intros c l. induction l as [|c' l IH]; intros i H; [discriminate|].
  simpl in H. destruct (String.eqb c' c) eqn:E.
  - injection H as <-. apply String.eqb_eq in E. subst. simpl.
    split; [lia|reflexivity].
  - destruct (indice c l) as [j|] eqn:J; [|discriminate].
    simpl in H. injection H as <-.
    destruct (IH j eq_refl) as [H1 H2]. simpl. split; [lia|exact H2].
Qed.

Lemma abreviatura_dia : forall i t,
  i < 7 ->
  abreviatura (nth i dias_ingles "" ++ ": " ++ t)%string
  = Some (nth i dias_semana "").
Proof.
  intros i t Hi.
  do 7 (destruct i as [|i]; [destruct t; vm_compute; reflexivity|]). lia.
Qed.

(** An entry is accepted exactly when it is an English day name followed
    by [": "] and any text; its abbreviation is the Portuguese one of the
    same day. *)
Theorem abreviatura_dia_ingles : forall horario a,
  abreviatura horario = Some a <->
  exists i resto, i < 7
    /\ horario = (nth i dias_ingles "" ++ ": " ++ resto)%string
    /\ a = nth i dias_semana "".
Proof.
  intros h a. split.
  - unfold abreviatura. intros H.
    destruct (split_dois_pontos h) as [|dia [|resto [|? ?]]] eqn:E;
      try discriminate.
    destruct (indice dia dias_ingles) as [i|] eqn:I; [|discriminate].
    apply split_dois_pontos_app in E. apply indice_nth in I.
    destruct I as [Hi Hn]. exists i, resto. split; [exact Hi|]. split.
    + rewrite Hn. exact E.
    + symmetry. apply nth_error_nth, H.
  - intros [i [resto [Hi [-> ->]]]]. apply abreviatura_dia, Hi.
Qed.

Lemma dias_semana_inj : forall i j,
  i < 7 -> j < 7 -> nth i dias_semana "" = nth j dias_semana "" -> i = j.
Proof.
  intros i j Hi Hj H.
  do 7 (destruct i as [|i]; [do 7 (destruct j as [|j]; [first [reflexivity | vm_compute in H; discriminate H]|]); lia|]).
  lia.
Qed.

Lemma NoDup_dias : forall ds : list (nat * string),
  NoDup (map fst ds) -> Forall (fun p => fst p < 7) ds ->
  NoDup (map (fun p => nth (fst p) dias_semana "") ds).
Proof.
  induction ds as [|p ds IH]; intros Hn Hf; simpl; [constructor|].
  inversion Hn as [|? ? Hp Hr]; subst. inversion Hf as [|? ? Hp7 Hf']; subst.
  constructor; [|apply IH; assumption].
  intros Hin. apply in_map_iff in Hin. destruct Hin as [q [Hq Hin]].
  apply Hp. apply in_map_iff. exists q. split; [|exact Hin].
  apply dias_semana_inj; [| exact Hp7 | exact Hq].
  rewrite Forall_forall in Hf'. apply Hf', Hin.
Qed.

(** Entries for distinct days (one per day, as Google's [weekday_text])
    give their abbreviations joined by [", "] in input order: no range is
    formed, not even for a full week. *)
Theorem converter_horarios_dias_distintos : forall ds : list (nat * string),
  NoDup (map fst ds) -> Forall (fun p => fst p < 7) ds ->
  converter_horarios
    (map (fun p => (nth (fst p) dias_ingles "" ++ ": " ++ snd p)%string) ds)
  = Some (String.concat ", " (map (fun p => nth (fst p) dias_semana "") ds)).
Proof.
  intros ds Hn Hf.
  rewrite (converter_horarios_grupos _
             (map (fun p => nth (fst p) dias_semana "") ds)).
  - pose proof (NoDup_dias ds Hn Hf) as Hd.
    unfold distintos.
    rewrite (nodup_fixed_point string_dec (NoDup_rev Hd)), rev_involutive.
    f_equal. f_equal. rewrite <- (map_id (map _ ds)) at 2.
    apply map_ext_in. intros a Ha.
    rewrite (proj1 (NoDup_count_occ' string_dec _) Hd a Ha). reflexivity.
  - rewrite !map_map. apply map_ext_in. intros p Hp.
    apply abreviatura_dia. rewrite Forall_forall in Hf. apply Hf, Hp.
Qed.

Lemma converter_horarios_dias_distintos_witness :
  NoDup (map fst [(0, "8-18"); (2, "8-18"); (6, "fechado")])
  /\ Forall (fun p : nat * string => fst p < 7)
       [(0, "8-18"); (2, "8-18"); (6, "fechado")]
  /\ converter_horarios ["Monday: 8-18"; "Wednesday: 8-18"; "Sunday: fechado"]
     = Some "SEG, QUA, DOM".
Proof.
  assert (Hn : NoDup (map fst [(0, "8-18"); (2, "8-18"); (6, "fechado")])).
  { simpl. repeat constructor; simpl; intuition discriminate. }
  assert (Hf : Forall (fun p : nat * string => fst p < 7)
                 [(0, "8-18"); (2, "8-18"); (6, "fechado")]).
  { repeat constructor; simpl; lia. }
  split; [exact Hn|]. split; [exact Hf|].
  exact (converter_horarios_dias_distintos _ Hn Hf).
Defined.

(** ** The requests of a run *)

Lemma registra_ret : forall P A (a : A), registra P (ret a).
Proof.
  intros P A a s. exists []. rewrite app_nil_r. split; [reflexivity|constructor].
Qed.

Lemma registra_raise : forall P A, registra P (@raise A).
Proof.
  intros P A s. exists []. rewrite app_nil_r. split; [reflexivity|constructor].
Qed.

Lemma registra_bind : forall P A B (m : M A) (k : A -> M B),
  registra P m -> (forall a, registra P (k a)) -> registra P (bind m k).
Proof.
  intros P A B m k Hm Hk s. unfold bind. specialize (Hm s).
  destruct (m s) as [a s1|s1|]; auto.
  destruct Hm as [l1 [E1 F1]]. specialize (Hk a s1).
  destruct (k a s1) as [b s2|s2|]; auto;
    destruct Hk as [l2 [E2 F2]]; exists (l1 ++ l2);
    (split; [rewrite E2, E1, app_assoc; reflexivity
            | apply Forall_app; split; assumption]).
Qed.

Lemma registra_try_catch : forall P A (m h : M A),
  registra P m -> registra P h -> registra P (try_catch m h).
Proof.
  intros P A m h Hm Hh s. unfold try_catch. specialize (Hm s).
  destruct (m s) as [a s1|s1|]; auto.
  destruct Hm as [l1 [E1 F1]]. specialize (Hh s1).
  destruct (h s1) as [b s2|s2|]; auto;
    destruct Hh as [l2 [E2 F2]]; exists (l1 ++ l2);
    (split; [rewrite E2, E1, app_assoc; reflexivity
            | apply Forall_app; split; assumption]).
Qed.

Lemma registra_http_get : forall P prov url ps,
  P (url, ps) -> registra P (http_get prov url ps).
Proof.
  intros P prov url ps H s. unfold http_get.
  destruct (prov (st_log s) (url, ps)); simpl;
    exists [(url, ps)]; split; auto.
Qed.

Lemma registra_append_row : forall P r, registra P (append_row r).
Proof.
  intros P r s. exists []. simpl. rewrite app_nil_r.
  split; [reflexivity|constructor].
Qed.

Lemma registra_py_getitem : forall P d k, registra P (py_getitem d k).
Proof.
  intros P [] k; simpl; try apply registra_raise.
  destruct (assoc k kv); [apply registra_ret | apply registra_raise].
Qed.

Lemma registra_py_get : forall P d k dflt, registra P (py_get d k dflt).
Proof. intros P [] k dflt; simpl; auto using registra_ret, registra_raise. Qed.

Lemma registra_py_iter : forall P d, registra P (py_iter d).
Proof. intros P []; simpl; auto using registra_ret, registra_raise. Qed.

Create HintDb registra_db.
#[export] Hint Resolve registra_ret registra_raise registra_bind
  registra_try_catch registra_http_get registra_append_row registra_py_getitem
  registra_py_get registra_py_iter : registra_db.

Ltac registra_auto :=
  repeat match goal with
         | |- registra _ (bind _ _) => apply registra_bind; [|intro]
         | |- registra _ (try_catch _ _) => apply registra_try_catch
         | |- registra _ (if ?b then _ else _) => destruct b
         | |- registra _ (let '(_, _) := ?p in _) => destruct p
         | |- registra _ (match ?x with _ => _ end) => destruct x
         | |- _ => solve [auto with registra_db]
         end.

Lemma registra_obter_detalhes : forall P prov key pid,
  P (detalhes_url, detalhes_params key pid) ->
  registra P (obter_detalhes_por_place_id prov key pid).
Proof.
  intros P prov key pid H. unfold obter_detalhes_por_place_id.
  registra_auto.
Qed.

Lemma registra_campos_detalhes : forall P d, registra P (campos_detalhes d).
Proof. intros. unfold campos_detalhes. registra_auto. Qed.

Lemma registra_processar : forall P prov key addr hit,
  (forall pid, P (detalhes_url, detalhes_params key pid)) ->
  registra P (processar_resultado prov key addr hit).
Proof.
  intros P prov key addr hit H. unfold processar_resultado.
  registra_auto.
  - apply registra_obter_detalhes, H.
  - apply registra_campos_detalhes.
Qed.

Lemma registra_mapM_ : forall P A (f : A -> M unit) l,
  (forall x, registra P (f x)) -> registra P (mapM_ f l).
Proof.
  intros P A f l Hf. induction l as [|x r IH]; simpl; registra_auto.
Qed.

Lemma registra_paginar : forall P prov key url addr fuel ps tok,
  (forall ps tok, P (url, ps) -> P (url, dict_set ps "pagetoken" tok)) ->
  (forall pid, P (detalhes_url, detalhes_params key pid)) ->
  P (url, ps) ->
  registra P (paginar prov key url addr fuel ps tok).
Proof.
  intros P prov key url addr fuel. induction fuel as [|n IH];
    intros ps tok Ht Hd Hp.
  - intros s. simpl. exact I.
  - assert (Hp' : P (url, if truthy tok then dict_set ps "pagetoken" tok
                          else ps))
      by (destruct (truthy tok); auto).
    cbn [paginar]. registra_auto.
    all: try (apply registra_mapM_; intro; apply registra_processar, Hd).
    all: try (apply IH; assumption).
Qed.

Lemma registra_buscar : forall P prov key url addr ps fuel,
  (forall ps tok, P (url, ps) -> P (url, dict_set ps "pagetoken" tok)) ->
  (forall pid, P (detalhes_url, detalhes_params key pid)) ->
  P (url, ps) ->
  registra P (buscar prov key url addr ps fuel).
Proof.
  intros P prov key url addr ps fuel Ht Hd Hp s. unfold buscar.
  pose proof (registra_try_catch P unit _ _
                (registra_paginar P prov key url addr fuel ps JNull Ht Hd Hp)
                (registra_ret P unit tt) (mkSt (st_log s) [])) as H.
  destruct (try_catch _ _ (mkSt (st_log s) [])); exact H.
Qed.

Lemma chave_pagetoken : forall key url ps tok,
  pedido_com_chave key (url, ps) ->
  pedido_com_chave key (url, dict_set ps "pagetoken" tok).
Proof.
  intros key url ps tok [Hu Hk]. split; [exact Hu|].
  simpl in *. rewrite assoc_dict_set_neq by discriminate. exact Hk.
Qed.

Lemma chave_detalhes : forall key pid,
  pedido_com_chave key (detalhes_url, detalhes_params key pid).
Proof.
  intros. split; [simpl; auto|reflexivity].
Qed.

Lemma chave_textsearch : forall key razao loc raio cidade estado,
  pedido_com_chave key
    (BASE_URL, textsearch_params key razao loc raio cidade estado).
Proof.
  intros. split; [simpl; auto|]. simpl snd. unfold textsearch_params.
  rewrite !anexar_opcional_outra by discriminate.
  destruct raio as [r|]; [destruct (Z.eqb r 0)|];
    try rewrite assoc_dict_set_neq by discriminate;
    (destruct (fornecido loc);
     [rewrite assoc_dict_set_neq by discriminate|]; reflexivity).
Qed.

Lemma chave_nearbysearch : forall key razao loc raio,
  pedido_com_chave key
    (nearby_url, nearbysearch_params key razao loc raio).
Proof. intros. split; [simpl; auto|reflexivity]. Qed.

Lemma registra_buscar_empresas : forall prov key fuel razao loc raio cidade
  estado,
  registra (pedido_com_chave key)
    (buscar_empresas_por_razao_social prov key fuel razao loc raio cidade
       estado).
Proof.
  intros. unfold buscar_empresas_por_razao_social.
  apply registra_bind; [|intro; apply registra_bind; [|intro]].
  - apply registra_buscar;
      auto using chave_pagetoken, chave_detalhes, chave_textsearch.
  - apply registra_buscar;
      auto using chave_pagetoken, chave_detalhes, chave_nearbysearch.
  - registra_auto.
Qed.

(** The first request of a run is the geocoding request; every later
    request goes to the text search, nearby search or details endpoint and
    its params carry ['key'] with the API key. *)
Theorem main_pedidos_com_chave :
  forall (prov : provider) (API_KEY : json) (py_str : json -> string)
         (fuel : nat) (cidade estado : string) (s : st),
    match main prov API_KEY py_str fuel cidade estado s with
    | Ret _ s' | Exc s' =>
        exists l,
          st_log s' = st_log s ++ (geocode_url,
                                   geocode_params API_KEY cidade estado) :: l
          /\ Forall (pedido_com_chave API_KEY) l
    | NoFuel => True
    end.
Proof.
  intros prov key py_str fuel cidade estado s. unfold main. cbv zeta.
  unfold bind at 1.
  destruct (obter_coordenadas_um_pedido prov key py_str cidade estado s)
    as [o Eo].
  rewrite Eo.
  set (s1 := mkSt _ _).
  assert (H : registra (pedido_com_chave key)
                (match fornecido o with
                 | Some l =>
                     bind (buscar_empresas_por_razao_social prov key fuel
                             "RAZAO SOCIAL" (Some l) (Some 23000%Z)
                             (Some cidade) (Some estado))
                       (fun resultados =>
                          if vazio resultados then ret None
                          else match salvar_resultados resultados with
                               | Some t => ret (Some t)
                               | None => raise
                               end)
                 | None => ret None
                 end)).
  { destruct (fornecido o); [|apply registra_ret].
    apply registra_bind; [apply registra_buscar_empresas|]. intro.
    registra_auto. }
  specialize (H s1).
  destruct (match fornecido o with _ => _ end s1); auto;
    destruct H as [l [E F]]; exists l; (split; [|exact F]);
    rewrite E; simpl; rewrite <- app_assoc; reflexivity.
Qed.

(** ** Exceptions, early exits and the hits of a page *)

Lemma buscar_sem_excecao : forall prov key url addr ps fuel s s',
  buscar prov key url addr ps fuel s <> Exc s'.
Proof.
  intros prov key url addr ps fuel s s' H. unfold buscar, try_catch in H.
  destruct (paginar prov key url addr fuel ps JNull (mkSt (st_log s) []));
    discriminate H.
Qed.

Lemma forallb_falso : forall A (f : A -> bool) l,
  forallb f l = false -> exists x, In x l /\ f x = false.
Proof.
  intros A f l. induction l as [|x l IH]; simpl; [discriminate|].
  intros H. destruct (f x) eqn:E.
  - destruct (IH H) as [y [Hy Hf]]. exists y. auto.
  - exists x. auto.
Qed.

(** The decomposition of a run that raises or exports: the coordinates,
    both searches, and the merge, export selection and emptiness test on
    their tables. *)
Lemma main_apos_buscas :
  forall prov key py_str fuel cidade estado s,
    (exists s', main prov key py_str fuel cidade estado s = Exc s')
    \/ (exists o s', main prov key py_str fuel cidade estado s
                     = Ret (Some o) s') ->
    exists loc l s1 t1 s2 t2 s3,
      obter_coordenadas prov key py_str cidade estado s = Ret loc s1
      /\ fornecido loc = Some l
      /\ buscar_textsearch prov key fuel "RAZAO SOCIAL" (Some l)
           (Some 23000%Z) (Some cidade) (Some estado) s1 = Ret t1 s2
      /\ buscar_nearbysearch prov key fuel "RAZAO SOCIAL" (Some l)
           (Some 23000%Z) s2 = Ret t2 s3
      /\ main prov key py_str fuel cidade estado s
         = match drop_duplicates (concat t1 t2) with
           | Some f =>
               if vazio f then Ret None s3
               else match salvar_resultados f with
                    | Some t => Ret (Some t) s3
                    | None => Exc s3
                    end
           | None => Exc s3
           end.
Proof.
  intros prov key py_str fuel cidade estado s Hr.
  destruct (obter_coordenadas_um_pedido prov key py_str cidade estado s)
    as [loc E1].
  unfold main, buscar_empresas_por_razao_social, bind, ret, raise
    in Hr |- *.
  cbv zeta in Hr |- *. rewrite E1 in Hr |- *. set (s1 := mkSt _ _) in *.
  destruct (fornecido loc) as [l|] eqn:E2;
    [| destruct Hr as [[? Hr]|[? [? Hr]]]; discriminate Hr].
  destruct (buscar_textsearch prov key fuel "RAZAO SOCIAL" (Some l)
              (Some 23000%Z) (Some cidade) (Some estado) s1)
    as [t1 s2|s2|] eqn:E3;
    [| exfalso; eapply buscar_sem_excecao; exact E3
     | destruct Hr as [[? Hr]|[? [? Hr]]]; discriminate Hr].
  destruct (buscar_nearbysearch prov key fuel "RAZAO SOCIAL" (Some l)
              (Some 23000%Z) s2) as [t2 s3|s3|] eqn:E4;
    [| exfalso; eapply buscar_sem_excecao; exact E4
     | destruct Hr as [[? Hr]|[? [? Hr]]]; discriminate Hr].
  exists loc, l, s1, t1, s2, t2, s3.
  split; [reflexivity|]. repeat (split; [assumption|]).
  destruct (drop_duplicates (concat t1 t2)) as [f|];
    [destruct (vazio f); [|destruct (salvar_resultados f)]|]; reflexivity.
Qed.

(** An exception escapes the top-level flow in two places only: in
    [drop_duplicates], when a row of the two search tables holds a list or
    a dict cell, or in the [to_excel] write of the non-empty exported
    table.  Geocoding, both searches, the renaming and the column
    selection never raise. *)
Theorem main_com_escrita_excecoes :
  forall (prov : provider) (API_KEY : json) (py_str : json -> string)
         (escrever : frame -> bool) (fuel : nat) (cidade estado : string)
         (s s' : st),
    main_com_escrita prov API_KEY py_str escrever fuel cidade estado s
    = Exc s' ->
    exists loc l s1 t1 s2 t2,
      obter_coordenadas prov API_KEY py_str cidade estado s = Ret loc s1
      /\ fornecido loc = Some l
      /\ buscar_textsearch prov API_KEY fuel "RAZAO SOCIAL" (Some l)
           (Some 23000%Z) (Some cidade) (Some estado) s1 = Ret t1 s2
      /\ buscar_nearbysearch prov API_KEY fuel "RAZAO SOCIAL" (Some l)
           (Some 23000%Z) s2 = Ret t2 s'
      /\ ((exists r c, In r (frows t1 ++ frows t2) /\ In c r
             /\ ((exists xs, c = JArr xs) \/ (exists kv, c = JObj kv)))
          \/ (exists f t, drop_duplicates (concat t1 t2) = Some f
                /\ vazio f = false
                /\ salvar_resultados f = Some t
                /\ escrever t = false)).
Proof.
  intros prov key py_str escrever fuel cidade estado s s' H.
  unfold main_com_escrita, bind in H.
  destruct (main prov key py_str fuel cidade estado s) as [o s3|s3|] eqn:Em;
    [| | discriminate H].
  - destruct o as [t|]; [|discriminate H].
    destruct (escrever t) eqn:W; [discriminate H|].
    unfold raise in H. injection H as <-.
    destruct (main_apos_buscas prov key py_str fuel cidade estado s
                (or_intror (ex_intro _ t (ex_intro _ s3 Em))))
      as (loc & l & s1 & t1 & s2 & t2 & s4 & E1 & E2 & E3 & E4 & E5).
    rewrite Em in E5.
    destruct (drop_duplicates (concat t1 t2)) as [f|] eqn:D; [|discriminate E5].
    destruct (vazio f) eqn:V; [discriminate E5|].
    destruct (salvar_resultados f) as [t'|] eqn:Sv; [|discriminate E5].
    injection E5 as <- <-.
    exists loc, l, s1, t1, s2, t2. repeat (split; [assumption|]).
    right. exists f, t. repeat split; assumption.
  - injection H as <-.
    destruct (main_apos_buscas prov key py_str fuel cidade estado s
                (or_introl (ex_intro _ s3 Em)))
      as (loc & l & s1 & t1 & s2 & t2 & s4 & E1 & E2 & E3 & E4 & E5).
    rewrite Em in E5.
    destruct (drop_duplicates (concat t1 t2)) as [f|] eqn:D.
    + exfalso.
      assert (Bf : bem_formada f).
      { eapply drop_duplicates_bem_formada; [|exact D].
        apply concat_bem_formada; eapply buscar_bem_formada; eassumption. }
      destruct Bf as [C F].
      destruct (vazio f) eqn:V; [discriminate E5|].
      assert (C' : fcols f = cols_busca).
      { destruct C as [C | [C R]]; auto.
        unfold vazio in V. rewrite C in V. discriminate. }
      rewrite salvar_resultados_busca in E5 by assumption. discriminate E5.
    + injection E5 as <-.
      exists loc, l, s1, t1, s2, t2. repeat (split; [assumption|]).
      left. unfold drop_duplicates in D.
      destruct (forallb (forallb hashable) (frows (concat t1 t2))) eqn:E6;
        [discriminate D|].
      destruct (forallb_falso _ _ _ E6) as [r [Hr Hf]].
      destruct (forallb_falso _ _ _ Hf) as [c [Hc Hh]].
      exists r, c. split; [exact Hr|]. split; [exact Hc|].
      destruct c as [| | | |xs|kv]; try discriminate Hh;
        [left; exists xs | right; exists kv]; reflexivity.
Qed.

Lemma main_com_escrita_excecoes_witness :
  exists s',
    main_com_escrita (prov_celula (JArr [])) (JStr "k") (fun _ => "0")
      (fun _ => true) 2 "c" "e" (mkSt [] []) = Exc s'
    /\ exists loc l s1 t1 s2 t2,
      obter_coordenadas (prov_celula (JArr [])) (JStr "k") (fun _ => "0")
        "c" "e" (mkSt [] []) = Ret loc s1
      /\ fornecido loc = Some l
      /\ buscar_textsearch (prov_celula (JArr [])) (JStr "k") 2
           "RAZAO SOCIAL" (Some l) (Some 23000%Z) (Some "c") (Some "e") s1
         = Ret t1 s2
      /\ buscar_nearbysearch (prov_celula (JArr [])) (JStr "k") 2
           "RAZAO SOCIAL" (Some l) (Some 23000%Z) s2 = Ret t2 s'
      /\ ((exists r c, In r (frows t1 ++ frows t2) /\ In c r
             /\ ((exists xs, c = JArr xs) \/ (exists kv, c = JObj kv)))
          \/ (exists f t, drop_duplicates (concat t1 t2) = Some f
                /\ vazio f = false
                /\ salvar_resultados f = Some t
                /\ (fun _ : frame => true) t = false)).
Proof.
  destruct (main_com_escrita (prov_celula (JArr [])) (JStr "k")
              (fun _ => "0") (fun _ => true) 2 "c" "e" (mkSt [] []))
    as [o s'|s'|] eqn:E.
  - vm_compute in E. discriminate E.
  - exists s'. split; [reflexivity|].
    exact (main_com_escrita_excecoes (prov_celula (JArr [])) (JStr "k")
             (fun _ => "0") (fun _ => true) 2 "c" "e" (mkSt [] []) s' E).
  - vm_compute in E. discriminate E.
Defined.

(** A page whose status is not OK ends the page loop after that one
    request: no detail lookup, no further page, the rows gathered so far
    kept. *)
Theorem paginar_status_nao_ok :
  forall (prov : provider) (API_KEY : json) (url chave_endereco : string)
         (n : nat) (ps : params) (tok : json) (s : st)
         (kv : list (string * json)) (status : json),
    let ps' : params :=
      if truthy tok then dict_set ps "pagetoken" tok else ps in
    prov (st_log s) (url, ps') = Body (JObj kv) ->
    assoc "status" kv = Some status -> is_ok status = false ->
    paginar prov API_KEY url chave_endereco (S n) ps tok s
    = Ret tt (mkSt (st_log s ++ [(url, ps')]) (st_acc s)).
Proof.
  intros prov key url addr n ps tok s kv status ps' Hp Hs Ho. subst ps'.
  cbn [paginar]. unfold bind at 1, http_get. cbv beta zeta.
  match goal with |- context [prov ?a ?b] =>
    replace (prov a b) with (Body (JObj kv)) by (symmetry; exact Hp) end.
  unfold bind at 1, py_getitem. rewrite Hs. unfold ret at 1.
  rewrite Ho. reflexivity.
Qed.

Lemma paginar_status_nao_ok_witness :
  paginar (fun _ _ => Body (JObj [("status", JStr "INVALID_REQUEST")]))
    (JStr "k") BASE_URL "formatted_address" 1 ps_exemplo (JStr "t")
    (mkSt [] [mkRow (JStr "A") NA NA NA])
  = Ret tt (mkSt [(BASE_URL, dict_set ps_exemplo "pagetoken" (JStr "t"))]
                 [mkRow (JStr "A") NA NA NA]).
Proof.
  apply (paginar_status_nao_ok
           (fun _ _ => Body (JObj [("status", JStr "INVALID_REQUEST")]))
           (JStr "k") BASE_URL "formatted_address" 0 ps_exemplo (JStr "t")
           (mkSt [] [mkRow (JStr "A") NA NA NA])
           [("status", JStr "INVALID_REQUEST")] (JStr "INVALID_REQUEST"));
    reflexivity.
Defined.

(** Exporting the table of a search raises exactly when the search found
    no row (the DataFrame has no columns to select). *)
Theorem salvar_resultados_vazio :
  forall rs : list row,
    salvar_resultados (frame_of_rows rs) = None <-> rs = [].
Proof.
  intros rs. split.
  - intros H. destruct rs as [|r rs]; [reflexivity|].
    rewrite salvar_resultados_busca in H; [discriminate H | reflexivity |].
    apply Forall_forall. intros x Hx.
    change (In x (map celulas (r :: rs))) in Hx.
    apply in_map_iff in Hx. destruct Hx as [r' [<- _]]. reflexivity.
  - intros ->. reflexivity.
Qed.

(** When the loop over the hits of a page completes, it has issued one
    detail request per hit, in order, for the hit's ['place_id'] or ["N/A"],
    and appended one row per hit. *)
Theorem mapM_processar_um_pedido_por_hit :
  forall (prov : provider) (API_KEY : json) (chave_endereco : string)
         (hits : list json) (s s' : st),
    mapM_ (processar_resultado prov API_KEY chave_endereco) hits s
    = Ret tt s' ->
    st_log s' = st_log s ++ map (fun hit => (detalhes_url,
                                  detalhes_params API_KEY (place_id_de hit)))
                                hits
    /\ List.length (st_acc s') = List.length (st_acc s) + List.length hits.
Proof.
  intros prov key addr hits. induction hits as [|hit hits IH]; intros s s' H.
  - simpl in H. injection H as <-. rewrite app_nil_r. simpl.
    split; [reflexivity | lia].
  - simpl in H. unfold bind in H.
    destruct (processar_resultado prov key addr hit s) as [[] s1| |] eqn:E;
      try discriminate H.
    destruct (processar_resultado_linha prov key addr hit s s1 E)
      as (kv & d & s0 & r & -> & Ed & L & A & _).
    destruct (obter_detalhes_um_pedido prov key (dict_get kv "place_id" NA) s)
      as [d' Ed'].
    rewrite Ed' in Ed. injection Ed as _ <-.
    destruct (IH s1 s' H) as [L' A']. split.
    + rewrite L', L. simpl. rewrite <- app_assoc. reflexivity.
    + rewrite A', A, length_app. simpl. lia.
Qed.

Lemma mapM_processar_um_pedido_por_hit_witness :
  exists s',
    mapM_ (processar_resultado (prov_paginas Transport) (JStr "k")
             "formatted_address") [hit_nomeado "A"; JObj []] (mkSt [] [])
    = Ret tt s'
    /\ (st_log s' = [] ++ map (fun hit => (detalhes_url,
                          detalhes_params (JStr "k") (place_id_de hit)))
                        [hit_nomeado "A"; JObj []]
        /\ List.length (st_acc s') = List.length (@nil row) + 2).
Proof.
  destruct (mapM_ (processar_resultado (prov_paginas Transport) (JStr "k")
             "formatted_address") [hit_nomeado "A"; JObj []] (mkSt [] []))
    as [[] s'|s'|] eqn:E.
  - exists s'. split; [reflexivity|].
    exact (mapM_processar_um_pedido_por_hit (prov_paginas Transport)
             (JStr "k") "formatted_address" [hit_nomeado "A"; JObj []]
             (mkSt [] []) s' E).
  - vm_compute in E. discriminate E.
  - vm_compute in E. discriminate E.
Defined.

(** Every request of a search is either a page request to its URL whose
    params agree with the initial ones on every key but ['pagetoken'], or
    a detail lookup with the fixed field list. *)
Theorem buscar_pedidos_da_busca :
  forall (prov : provider) (API_KEY : json) (url chave_endereco : string)
         (ps : params) (fuel : nat) (s : st),
    url <> detalhes_url ->
    match buscar prov API_KEY url chave_endereco ps fuel s with
    | Ret _ s' | Exc s' =>
        exists l, st_log s' = st_log s ++ l
                  /\ Forall (pedido_da_busca API_KEY url ps) l
    | NoFuel => True
    end.
Proof.
  intros prov key url addr ps fuel s Hu.
  apply registra_buscar.
  - intros ps' tok [[E H] | [E _]]; simpl in E; [|congruence].
    left. split; [exact E|]. intros k Hk. simpl.
    rewrite assoc_dict_set_neq by exact Hk. apply H, Hk.
  - intros pid. right. split; [reflexivity|]. exists pid. reflexivity.
  - left. split; reflexivity.
Qed.

Lemma buscar_pedidos_da_busca_witness :
  BASE_URL <> detalhes_url
  /\ match buscar (prov_paginas (Body (pagina_ok [hit_nomeado "B"] JNull)))
             (JStr "k") BASE_URL "formatted_address" ps_exemplo 3 (mkSt [] [])
     with
     | Ret _ s' | Exc s' =>
         exists l, st_log s' = [] ++ l
                   /\ Forall (pedido_da_busca (JStr "k") BASE_URL ps_exemplo) l
     | NoFuel => True
     end.
Proof.
  assert (Hu : BASE_URL <> detalhes_url) by (vm_compute; discriminate).
  split; [exact Hu|].
  exact (buscar_pedidos_da_busca
           (prov_paginas (Body (pagina_ok [hit_nomeado "B"] JNull)))
           (JStr "k") BASE_URL "formatted_address" ps_exemplo 3 (mkSt [] []) Hu).
Defined.
